(** * Golden-case generator: normalisation of decoded audio metadata

    A shallow embedding of [tools/generate_golden_cases.py].  Python
    strings are Rocq strings (their bytes; the case mappings act on the
    ASCII letters), Python ints are [Z], Python floats are IEEE binary64
    values written as [spec_float], dictionaries are association lists in
    insertion order, and code that may raise returns a [result]. *)

From Stdlib Require Import List ZArith Bool Ascii String Lia.
From Stdlib Require Import Strings.Byte DecimalString Floats.SpecFloat.
From Stdlib Require Import Sorting.Permutation Sorting.Sorted.
Import ListNotations.

Local Open Scope string_scope.
Local Open Scope Z_scope.

(** ** Exceptions

    An exception is represented by its message, the text [str(exc)]
    yields.  Only instances of [Exception] are modelled: they are what the
    [except Exception] handlers of the source catch. *)

Definition exn := string.

Inductive result (A : Type) : Type :=
| Ok (a : A)
| Raise (e : exn).

Arguments Ok {A} a.
Arguments Raise {A} e.

Definition bind {A B : Type} (m : result A) (k : A -> result B) : result B :=
  match m with
  | Ok a => k a
  | Raise e => Raise e
  end.

Declare Scope result_scope.
Delimit Scope result_scope with result.
Notation "x <- m ;; k" := (bind m (fun x => k))
  (at level 61, m at next level, right associativity) : result_scope.
Local Open Scope result_scope.

(** [try: body except Exception: handler] *)
Definition try_except {A : Type} (body : result A) (handler : exn -> result A)
  : result A :=
  match body with
  | Ok a => Ok a
  | Raise e => handler e
  end.

Fixpoint mapM {A B : Type} (f : A -> result B) (l : list A) : result (list B) :=
  match l with
  | [] => Ok []
  | x :: l' => y <- f x ;; ys <- mapM f l' ;; Ok (y :: ys)
  end.

(** ** Strings *)

Module Str.

(** [p.rfind(c)]: the highest index of [c] in [p], [-1] when absent. *)
Fixpoint rfind_from (c : ascii) (p : string) (i last : Z) : Z :=
  match p with
  | EmptyString => last
  | String a p' => rfind_from c p' (i + 1) (if Ascii.eqb a c then i else last)
  end.

Definition rfind (c : ascii) (p : string) : Z := rfind_from c p 0 (-1).

(** [p[i:i+1]] for [0 <= i]: one character, or the empty string. *)
Definition char_at (p : string) (i : Z) : string :=
  substring (Z.to_nat i) 1 p.

(** [p[:i]] and [p[i:]] for [0 <= i <= len(p)]. *)
Definition slice_to (p : string) (i : Z) : string :=
  substring 0 (Z.to_nat i) p.

Definition slice_from (p : string) (i : Z) : string :=
  substring (Z.to_nat i) (String.length p - Z.to_nat i) p.

Definition is_upper (a : ascii) : bool :=
  let n := nat_of_ascii a in (Nat.leb 65 n && Nat.leb n 90)%bool.

Definition is_lower (a : ascii) : bool :=
  let n := nat_of_ascii a in (Nat.leb 97 n && Nat.leb n 122)%bool.

Definition lower_char (a : ascii) : ascii :=
  if is_upper a then ascii_of_nat (nat_of_ascii a + 32) else a.

Definition upper_char (a : ascii) : ascii :=
  if is_lower a then ascii_of_nat (nat_of_ascii a - 32) else a.

Fixpoint map_chars (f : ascii -> ascii) (s : string) : string :=
  match s with
  | EmptyString => EmptyString
  | String a s' => String (f a) (map_chars f s')
  end.

Definition lower : string -> string := map_chars lower_char.
Definition upper : string -> string := map_chars upper_char.

(** [s.lstrip(".")] *)
Fixpoint lstrip_dot (s : string) : string :=
  match s with
  | String "."%char s' => lstrip_dot s'
  | _ => s
  end.

(** [s.startswith(prefixes)] for a tuple of prefixes. *)
Definition startswith_any (prefixes : list string) (s : string) : bool :=
  existsb (fun p => prefix p s) prefixes.

(** [s in {...}] for a set of string literals. *)
Definition mem (s : string) (set : list string) : bool :=
  existsb (String.eqb s) set.

End Str.

(** ** [os.path.splitext] (POSIX) *)

Module OsPath.

(** The loop of [genericpath._splitext] that skips the leading dots of
    the last path component; [fuel] bounds its iterations by
    [dotIndex - filenameIndex]. *)
Fixpoint skip_leading_dots (fuel : nat) (p : string) (filenameIndex dotIndex : Z)
  : option (string * string) :=
  match fuel with
  | O => None
  | S fuel' =>
      if filenameIndex <? dotIndex then
        if negb (String.eqb (Str.char_at p filenameIndex) ".")
        then Some (Str.slice_to p dotIndex, Str.slice_from p dotIndex)
        else skip_leading_dots fuel' p (filenameIndex + 1) dotIndex
      else None
  end.

Definition splitext (p : string) : string * string :=
  let sepIndex := Str.rfind "/"%char p in
  let dotIndex := Str.rfind "."%char p in
  let split :=
    if dotIndex >? sepIndex then
      let filenameIndex := sepIndex + 1 in
      skip_leading_dots (Z.to_nat (dotIndex - filenameIndex)) p filenameIndex dotIndex
    else None in
  match split with
  | Some r => r
  | None => (p, EmptyString)
  end.

(** [os.path.join(a, b)] for two components. *)
Definition join (a b : string) : string :=
  if prefix "/" b then b
  else if (String.eqb a "" || String.eqb (Str.char_at a (Z.of_nat (String.length a) - 1)) "/")%bool
       then a ++ b
       else a ++ "/" ++ b.

End OsPath.

(** ** Format Classifier *)

(** [os.path.splitext(name)[1].lower().lstrip(".")] *)
Definition file_ext (name : string) : string :=
  Str.lstrip_dot (Str.lower (snd (OsPath.splitext name))).

Definition format_of_ext (ext : string) : string :=
  if String.eqb ext "mp3" then "mp3"
  else if String.eqb ext "flac" then "flac"
  else if Str.mem ext ["m4a"; "m4b"; "m4p"; "mp4"; "3g2"] then
    if Str.mem ext ["m4a"; "m4b"; "m4p"; "3g2"] then "m4a" else "mp4"
  else if Str.mem ext ["wav"; "wave"] then "wave"
  else if Str.mem ext ["aif"; "aiff"; "aifc"] then "aiff"
  else if Str.mem ext ["asf"; "wma"] then "asf"
  else if Str.mem ext ["apev2"] then "apev2"
  else if Str.mem ext ["mpc"] then "musepack"
  else if Str.mem ext ["wv"] then "wavpack"
  else if Str.mem ext ["tak"] then "tak"
  else if Str.mem ext ["dsf"] then "dsf"
  else if Str.mem ext ["dff"; "dsdiff"] then "dsdiff"
  else if Str.mem ext ["aac"] then "aac"
  else if Str.mem ext ["ac3"] then "ac3"
  else if Str.mem ext ["eac3"] then "eac3"
  else if Str.mem ext ["ogg"; "oga"; "opus"; "spx"; "oggtheora"; "oggflac"; "ogv"] then "ogg"
  else if Str.mem ext ["tta"] then "trueAudio"
  else if Str.mem ext ["ofr"; "ofs"] then "optimFrog"
  else if Str.mem ext ["mid"; "smf"] then "smf"
  else if Str.mem ext ["ape"] then "monkeysAudio"
  else if Str.mem ext ["id3"] then "id3"
  else "unknown".

Definition format_from_filename (name : string) : string :=
  format_of_ext (file_ext name).

(** The identifiers [format_from_filename] has a [return] for. *)
Definition canonical_formats : list string :=
  ["mp3"; "flac"; "m4a"; "mp4"; "wave"; "aiff"; "asf"; "apev2"; "musepack";
   "wavpack"; "tak"; "dsf"; "dsdiff"; "aac"; "ac3"; "eac3"; "ogg";
   "trueAudio"; "optimFrog"; "smf"; "monkeysAudio"; "id3"; "unknown"].

(** The extensions named in the membership tests of [format_from_filename]. *)
Definition known_extensions : list string :=
  ["mp3"; "flac"; "m4a"; "m4b"; "m4p"; "mp4"; "3g2"; "wav"; "wave"; "aif";
   "aiff"; "aifc"; "asf"; "wma"; "apev2"; "mpc"; "wv"; "tak"; "dsf"; "dff";
   "dsdiff"; "aac"; "ac3"; "eac3"; "ogg"; "oga"; "opus"; "spx"; "oggtheora";
   "oggflac"; "ogv"; "tta"; "ofr"; "ofs"; "mid"; "smf"; "ape"; "id3"].

(** ** Floats

    A Python float is an IEEE binary64 value. *)

Module Float.

Definition t := spec_float.

Definition prec : Z := 53.
Definition emax : Z := 1024.

(** [math.isfinite(x)] *)
Definition isfinite (x : t) : bool :=
  match x with
  | S754_zero _ | S754_finite _ _ _ => true
  | S754_infinity _ | S754_nan => false
  end.

(** [int(x)] for a finite [x]: truncation toward zero. *)
Definition trunc (x : t) : Z :=
  match x with
  | S754_finite s m e =>
      let a := match e with
               | Z0 => Zpos m
               | Zpos p => Z.shiftl (Zpos m) (Zpos p)
               | Zneg p => Z.shiftr (Zpos m) (Zpos p)
               end in
      if s then - a else a
  | _ => 0
  end.

(** The float an integer operand is converted to in mixed arithmetic. *)
Definition of_int (n : Z) : t := binary_normalize prec emax n 0 false.

Definition sub (x y : t) : t := SFsub prec emax x y.
Definition abs (x : t) : t := SFabs x.
Definition ltb (x y : t) : bool := SFltb x y.

(** The literal [1e-9]: the binary64 value 0x1.12e0be826d695p-30. *)
Definition lit_1e_9 : t := S754_finite false 4835703278458517 (-82).

Definition nan : t := S754_nan.
Definition inf : t := S754_infinity false.
Definition neg_inf : t := S754_infinity true.

End Float.

(** ** The library functions the generator calls *)

Definition bytes := list byte.

Class Runtime : Type := {
  (** [hashlib.sha256(raw).hexdigest()] *)
  sha256_hexdigest : bytes -> string;
  (** [raw.decode("utf-8", "replace")] *)
  utf8_decode_replace : bytes -> string;
  (** [repr] of a finite float, which is also its [str] *)
  float_repr : Float.t -> string;
  (** [repr] of a [bytes] object, which is also its [str] *)
  bytes_repr : bytes -> string;
  (** [float(s)] for a string [s] *)
  parse_float : string -> result Float.t;
  (** The directory of the sample files and the directory written to. *)
  DATA_DIR : string;
  OUTPUT_DIR : string
}.

(** ** Decoded values

    A value of the decoder is seen through what the generator asks of it:
    the built-in class it is an instance of ([isinstance]), with the
    payload of that class, and the outcome of [hasattr], [bytes], [str],
    [float] and of reading its [text] attribute.  A plain built-in value
    answers these as the built-in class does; an instance of a subclass or
    of another class may answer otherwise. *)

Record attrs : Type := {
  (** [hasattr(value, "imageformat")] *)
  has_imageformat : bool;
  (** [bytes(value)] *)
  to_bytes : result bytes;
  (** [value.text] when [hasattr(value, "text")]: the iteration may raise;
      each element is given by the outcome of [str] on it. *)
  text_attr : option (result (list (result string)));
  (** [str(value)] *)
  to_str : result string;
  (** [float(value)] *)
  to_float : result Float.t
}.

Inductive shape : Type :=
| SNone
| SBool (b : bool)
| SInt (n : Z)
| SFloat (x : Float.t)
| SStr (s : string)
| SBytes (raw : bytes)
| SByteArray (raw : bytes)
| SMemoryView (raw : bytes)
| SList (xs : list pyval)
| STuple (xs : list pyval)
| SObject
with pyval : Type :=
| PyVal (sh : shape) (a : attrs).

Definition shape_of (v : pyval) : shape := let (sh, _) := v in sh.
Definition attrs_of (v : pyval) : attrs := let (_, a) := v in a.

Definition py_str (v : pyval) : result string := to_str (attrs_of v).
Definition py_bytes (v : pyval) : result bytes := to_bytes (attrs_of v).
Definition py_float (v : pyval) : result Float.t := to_float (attrs_of v).

Definition hasattr_imageformat (v : pyval) : bool := has_imageformat (attrs_of v).
Definition hasattr_text (v : pyval) : bool :=
  match text_attr (attrs_of v) with Some _ => true | None => false end.

(** [str(n)] for an int. *)
Definition str_of_int (n : Z) : string := NilZero.string_of_int (Z.to_int n).

Section PlainValues.

Context {rt : Runtime}.

Definition str_of_float (x : Float.t) : string :=
  match x with
  | S754_nan => "nan"
  | S754_infinity false => "inf"
  | S754_infinity true => "-inf"
  | _ => float_repr x
  end.

Definition plain_value (sh : shape) (bytes_ : result bytes) (str_ : string)
  (float_ : result Float.t) : pyval :=
  PyVal sh {| has_imageformat := false; to_bytes := bytes_; text_attr := None;
              to_str := Ok str_; to_float := float_ |}.

Definition plain_none : pyval :=
  plain_value SNone (Raise "cannot convert 'NoneType' object to bytes") "None"
    (Raise "float() argument must be a string or a real number, not 'NoneType'").

Definition plain_bool (b : bool) : pyval :=
  plain_value (SBool b) (Ok (repeat x00 (if b then 1%nat else 0%nat)))
    (if b then "True" else "False")
    (Ok (Float.of_int (if b then 1 else 0))).

(** [bytes(n)] is [n] zero bytes for [0 <= n]. *)
Definition plain_int (n : Z) : pyval :=
  plain_value (SInt n)
    (if n <? 0 then Raise "negative count" else Ok (repeat x00 (Z.to_nat n)))
    (str_of_int n) (Ok (Float.of_int n)).

Definition plain_float (x : Float.t) : pyval :=
  plain_value (SFloat x) (Raise "cannot convert 'float' object to bytes")
    (str_of_float x) (Ok x).

Definition plain_str (s : string) : pyval :=
  plain_value (SStr s) (Raise "string argument without an encoding") s (parse_float s).

Definition plain_bytes (raw : bytes) : pyval :=
  plain_value (SBytes raw) (Ok raw) (bytes_repr raw)
    (parse_float (string_of_list_byte raw)).

(** A list or tuple prints through the [repr] of its elements; the
    printed form is given with the value. *)
Definition plain_list (xs : list pyval) (printed : string) : pyval :=
  plain_value (SList xs) (Raise "cannot convert 'list' object to bytes") printed
    (Raise "float() argument must be a string or a real number, not 'list'").

Definition plain_tuple (xs : list pyval) (printed : string) : pyval :=
  plain_value (STuple xs) (Raise "cannot convert 'tuple' object to bytes") printed
    (Raise "float() argument must be a string or a real number, not 'tuple'").

End PlainValues.

(** ** Canonical values *)

Inductive canonical : Type :=
| CText (value : list string)
| CBinary (size : Z) (sha256 : string)
| CBool (value : bool)
| CInt (value : Z)
| CDouble (value : Float.t).

(** A dictionary with string keys, in insertion order. *)
Definition dict (V : Type) : Type := list (string * V).

(** [d[key] = v]: an existing key keeps its place. *)
Fixpoint dict_set {V : Type} (d : dict V) (key : string) (v : V) : dict V :=
  match d with
  | [] => [(key, v)]
  | (k, w) :: d' =>
      if String.eqb k key then (k, v) :: d' else (k, w) :: dict_set d' key v
  end.

Fixpoint dict_get {V : Type} (d : dict V) (key : string) : option V :=
  match d with
  | [] => None
  | (k, w) :: d' => if String.eqb k key then Some w else dict_get d' key
  end.

Definition dict_keys {V : Type} (d : dict V) : list string := map fst d.

(** ** Value Normalizer *)

Section Normalizer.

Context {rt : Runtime}.

Definition binary_of (raw : bytes) : canonical :=
  CBinary (Z.of_nat (List.length raw)) (sha256_hexdigest raw).

(** [isinstance(x, (bytes, bytearray, memoryview))] *)
Definition is_byteslike (x : pyval) : bool :=
  match shape_of x with
  | SBytes _ | SByteArray _ | SMemoryView _ => true
  | _ => false
  end.

(** [isinstance(x, (str, bytes, int, float, bool))] *)
Definition is_primitive (x : pyval) : bool :=
  match shape_of x with
  | SStr _ | SBytes _ | SInt _ | SFloat _ | SBool _ => true
  | _ => false
  end.

(** [[str(x) for x in value.text]] when [hasattr(value, "text")]. *)
Definition text_conversion (value : pyval) : option (result (list string)) :=
  match text_attr (attrs_of value) with
  | None => None
  | Some elements => Some (xs <- elements ;; mapM (fun r => r) xs)
  end.

(** The text rule: what its [try] block returns; [None] when the value
    has no [text] attribute or the block raised. *)
Definition text_rule (value : pyval) : option (list string) :=
  match text_conversion value with
  | Some (Ok texts) => Some texts
  | Some (Raise _) | None => None
  end.

(** One element of the all-primitives branch. *)
Definition convert_element (x : pyval) : result string :=
  match shape_of x with
  | SBytes raw => Ok (utf8_decode_replace raw)
  | _ => py_str x
  end.

(** The [isinstance(value, (list, tuple))] rule; [None] when it does not
    return. *)
Definition sequence_rule (value : pyval) : option (result (option canonical)) :=
  match shape_of value with
  | SList xs | STuple xs =>
      if (negb (Nat.eqb (List.length xs) 0) && forallb is_byteslike xs)%bool then
        Some (blobs <- mapM py_bytes xs ;;
              Ok (Some (binary_of (List.concat blobs))))
      else if forallb is_primitive xs then
        Some (converted <- mapM convert_element xs ;;
              Ok (Some (CText converted)))
      else None
  | _ => None
  end.

(** The last rule: [str(value)]. *)
Definition str_fallback (value : pyval) : result (option canonical) :=
  text <- py_str value ;;
  if String.eqb text "" then Ok None else Ok (Some (CText [text])).

(** The rules after the sequence rule. *)
Definition scalar_rules (value : pyval) : result (option canonical) :=
  match shape_of value with
  | SBool b => Ok (Some (CBool b))
  | SInt n => Ok (Some (CInt n))
  | SFloat x =>
      if Float.isfinite x then Ok (Some (CDouble x)) else str_fallback value
  | _ => str_fallback value
  end.

(** The rules after the text rule. *)
Definition later_rules (value : pyval) : result (option canonical) :=
  match shape_of value with
  | SBytes raw => Ok (Some (binary_of raw))
  | _ =>
      match sequence_rule value with
      | Some r => r
      | None => scalar_rules value
      end
  end.

Definition normalize_tag_value (value : pyval) : result (option canonical) :=
  if hasattr_imageformat value then
    raw <- py_bytes value ;;
    Ok (Some (binary_of raw))
  else
    match text_rule value with
    | Some texts => Ok (Some (CText texts))
    | None => later_rules value
    end.

End Normalizer.

(** ** Number fields *)

Inductive number : Type :=
| NumBool (b : bool)
| NumInt (n : Z)
| NumFloat (x : Float.t).

(** [abs(v - int(v)) < 1e-9] *)
Definition near_integer (v : Float.t) : bool :=
  Float.ltb (Float.abs (Float.sub v (Float.of_int (Float.trunc v)))) Float.lit_1e_9.

(** The [try] block of [safe_number]. *)
Definition convert_number (value : pyval) : option number :=
  match py_float value with
  | Ok v =>
      if Float.isfinite v then
        if near_integer v then Some (NumInt (Float.trunc v)) else Some (NumFloat v)
      else None
  | Raise _ => None
  end.

(** [None] is Python's [None]. *)
Definition safe_number (value : pyval) : option number :=
  match shape_of value with
  | SNone => None
  | SBool b => Some (NumBool b)
  | SInt n => Some (NumInt n)
  | SFloat x => if Float.isfinite x then Some (NumFloat x) else None
  | _ => convert_number value
  end.

(** ** Decoded files *)

(** What [audio.tags] answers to [hasattr(source, "items")] and
    [list(source.items())]. *)
Inductive tag_container : Type :=
| NoItems
| ItemsRaise (e : exn)
| Items (items : list (pyval * pyval)).

(** The attributes of [audio.info], by name. *)
Definition info_object : Type := list (string * pyval).

(** [hasattr(info, name)] and [getattr(info, name)] *)
Fixpoint info_attr (info : info_object) (name : string) : option pyval :=
  match info with
  | [] => None
  | (k, v) :: info' => if String.eqb k name then Some v else info_attr info' name
  end.

(** [audio_tags] and [audio_info] are [getattr(audio, _, None)]: [None]
    when the attribute is missing or is Python's [None]. *)
Record audio_file : Type := {
  audio_tags : option tag_container;
  audio_info : option info_object
}.

(** ** Tag Collector *)

Definition wanted_prefixes : list string :=
  ["T"; "TITLE"; "ARTIST"; "ALBUM"; "GENRE"; "COMMENT";
   "\xa9"; "covr"; "trkn"; "disk"; "tmpo"; "cpil"; "purl"].

Definition common_names : list string :=
  ["TITLE"; "ARTIST"; "ALBUM"; "GENRE"; "COMMENT"].

(** The two [continue] tests on a key, negated: the key is kept. *)
Definition key_wanted (key_str : string) : bool :=
  (negb (String.eqb key_str "") &&
   (Str.startswith_any wanted_prefixes key_str ||
    Str.mem (Str.upper key_str) common_names))%bool.

Section Collectors.

Context {rt : Runtime}.

(** The body of the [for key, value in items[:120]] loop. *)
Definition collect_tag (tags : dict canonical) (entry : pyval * pyval)
  : result (dict canonical) :=
  let (key, value) := entry in
  key_str <- py_str key ;;
  if String.eqb key_str "" then Ok tags
  else if (negb (Str.startswith_any wanted_prefixes key_str) &&
           negb (Str.mem (Str.upper key_str) common_names))%bool then Ok tags
  else
    normalized <- normalize_tag_value value ;;
    match normalized with
    | Some c => Ok (dict_set tags key_str c)
    | None => Ok tags
    end.

Fixpoint collect_tags_loop (items : list (pyval * pyval)) (tags : dict canonical)
  : result (dict canonical) :=
  match items with
  | [] => Ok tags
  | entry :: items' =>
      tags' <- collect_tag tags entry ;;
      collect_tags_loop items' tags'
  end.

Definition container_items (source : tag_container) : list (pyval * pyval) :=
  match source with
  | Items items => items
  | NoItems | ItemsRaise _ => []
  end.

Definition collect_tags (audio : audio_file) : result (dict canonical) :=
  match audio_tags audio with
  | None => Ok []
  | Some source => collect_tags_loop (firstn 120 (container_items source)) []
  end.

(** ** Extension-Info Collector *)

Definition extension_attrs : list string :=
  ["version"; "layer"; "bitrate_mode"; "encoder_info"; "codec";
   "codec_name"; "codec_description"; "track_gain"; "track_peak";
   "album_gain"; "album_peak"; "title_gain"; "title_peak"].

(** What the loop body stores for a non-[None] attribute value; [None]
    when it stores nothing. *)
Definition extension_value (value : pyval) : result (option canonical) :=
  match shape_of value with
  | SInt n => Ok (Some (CInt n))
  | SBool b => Ok (Some (CInt (if b then 1 else 0)))
  | SFloat x => if Float.isfinite x then Ok (Some (CDouble x)) else Ok None
  | _ => text <- py_str value ;; Ok (Some (CText [text]))
  end.

(** The body of the [for name in attrs] loop. *)
Definition collect_extension (info : info_object) (ext : dict canonical)
  (name : string) : result (dict canonical) :=
  match info_attr info name with
  | None => Ok ext
  | Some value =>
      match shape_of value with
      | SNone => Ok ext
      | _ =>
          stored <- extension_value value ;;
          match stored with
          | Some c => Ok (dict_set ext name c)
          | None => Ok ext
          end
      end
  end.

Fixpoint collect_extensions_loop (info : info_object) (names : list string)
  (ext : dict canonical) : result (dict canonical) :=
  match names with
  | [] => Ok ext
  | name :: names' =>
      ext' <- collect_extension info ext name ;;
      collect_extensions_loop info names' ext'
  end.

Definition collect_extensions (audio : audio_file) : result (dict canonical) :=
  match audio_info audio with
  | None => Ok []
  | Some info => collect_extensions_loop info extension_attrs []
  end.

End Collectors.

(** ** Fixture cases *)

Record core_info : Type := {
  length : option number;
  bitrate : option number;
  sampleRate : option number;
  channels : option number;
  bitsPerSample : option number
}.

Record error_info : Type := {
  code : string;
  message : string
}.

Record fixture_case : Type := {
  caseId : string;
  sourcePythonTest : list string;
  inputFile : string;
  expectedFormat : string;
  expectedCoreInfo : core_info;
  expectedTags : dict canonical;
  expectedExtensions : dict canonical;
  expectedError : option error_info
}.

Definition empty_core_info : core_info :=
  {| length := None; bitrate := None; sampleRate := None; channels := None;
     bitsPerSample := None |}.

(** [case["expectedError"] = err] *)
Definition set_expectedError (case : fixture_case) (err : error_info) : fixture_case :=
  {| caseId := caseId case; sourcePythonTest := sourcePythonTest case;
     inputFile := inputFile case; expectedFormat := expectedFormat case;
     expectedCoreInfo := expectedCoreInfo case; expectedTags := expectedTags case;
     expectedExtensions := expectedExtensions case; expectedError := Some err |}.

Definition set_expectedCoreInfo (case : fixture_case) (core : core_info) : fixture_case :=
  {| caseId := caseId case; sourcePythonTest := sourcePythonTest case;
     inputFile := inputFile case; expectedFormat := expectedFormat case;
     expectedCoreInfo := core; expectedTags := expectedTags case;
     expectedExtensions := expectedExtensions case; expectedError := expectedError case |}.

Definition set_expectedTags (case : fixture_case) (tags : dict canonical) : fixture_case :=
  {| caseId := caseId case; sourcePythonTest := sourcePythonTest case;
     inputFile := inputFile case; expectedFormat := expectedFormat case;
     expectedCoreInfo := expectedCoreInfo case; expectedTags := tags;
     expectedExtensions := expectedExtensions case; expectedError := expectedError case |}.

Definition set_expectedExtensions (case : fixture_case) (ext : dict canonical) : fixture_case :=
  {| caseId := caseId case; sourcePythonTest := sourcePythonTest case;
     inputFile := inputFile case; expectedFormat := expectedFormat case;
     expectedCoreInfo := expectedCoreInfo case; expectedTags := expectedTags case;
     expectedExtensions := ext; expectedError := expectedError case |}.

(** ** Sorting *)

(** A stable sort by a string key, as [list.sort(key=...)] and [sorted]. *)
Fixpoint insert_by {A : Type} (key : A -> string) (x : A) (l : list A) : list A :=
  match l with
  | [] => [x]
  | y :: l' =>
      if String.leb (key x) (key y) then x :: y :: l' else y :: insert_by key x l'
  end.

Definition sort_by {A : Type} (key : A -> string) (l : list A) : list A :=
  fold_right (insert_by key) [] l.

(** The order of the sort, on strings. *)
Definition string_le (a b : string) : Prop := String.leb a b = true.

(** [sorted(set(l))] for strings. *)
Definition sorted_set (l : list string) : list string :=
  sort_by (fun s => s) (nodup string_dec l).

(** ** Case Builder *)

(** [safe_number(getattr(info, name, None))] *)
Definition core_field (info : info_object) (name : string) : option number :=
  match info_attr info name with
  | Some value => safe_number value
  | None => safe_number plain_none
  end.

Definition core_info_of (info : info_object) : core_info :=
  {| length := core_field info "length";
     bitrate := core_field info "bitrate";
     sampleRate := core_field info "sample_rate";
     channels := core_field info "channels";
     bitsPerSample := core_field info "bits_per_sample" |}.

(** The decoder: [mutagen.File(path)] raises, returns [None], or returns a
    decoded file. *)
Definition decoder : Type := string -> result (option audio_file).

Section CaseBuilder.

Context {rt : Runtime}.
Variable mutagen_File : decoder.

Definition initial_case (filename : string) (source_tests : list string)
  : fixture_case :=
  {| caseId := fst (OsPath.splitext filename);
     sourcePythonTest := sorted_set source_tests;
     inputFile := filename;
     expectedFormat := format_from_filename filename;
     expectedCoreInfo := empty_core_info;
     expectedTags := [];
     expectedExtensions := [];
     expectedError := None |}.

Definition build_case (filename : string) (source_tests : list string)
  : result fixture_case :=
  let abs_path := OsPath.join DATA_DIR filename in
  let case := initial_case filename source_tests in
  match mutagen_File abs_path with
  | Raise exc =>
      Ok (set_expectedError case {| code := "invalidHeader"; message := exc |})
  | Ok None =>
      Ok (set_expectedError case
            {| code := "unsupportedFormat"; message := "mutagen returned None" |})
  | Ok (Some audio) =>
      let case :=
        match audio_info audio with
        | Some info => set_expectedCoreInfo case (core_info_of info)
        | None => case
        end in
      tags <- collect_tags audio ;;
      let case := set_expectedTags case tags in
      ext <- collect_extensions audio ;;
      Ok (set_expectedExtensions case ext)
  end.

End CaseBuilder.

(** ** Fixture Writer *)

#[warnings="-register-all"]
Inductive json : Type :=
| JNull
| JBool (b : bool)
| JInt (n : Z)
| JFloat (x : Float.t)
| JString (s : string)
| JArray (items : list json)
| JObject (members : list (string * json)).

Definition json_of_canonical (c : canonical) : json :=
  match c with
  | CText value =>
      JObject [("kind", JString "text"); ("value", JArray (map JString value))]
  | CBinary size sha256 =>
      JObject [("kind", JString "binary");
               ("value", JObject [("size", JInt size); ("sha256", JString sha256)])]
  | CBool b => JObject [("kind", JString "bool"); ("value", JBool b)]
  | CInt n => JObject [("kind", JString "int"); ("value", JInt n)]
  | CDouble x => JObject [("kind", JString "double"); ("value", JFloat x)]
  end.

Definition json_of_number (n : option number) : json :=
  match n with
  | None => JNull
  | Some (NumBool b) => JBool b
  | Some (NumInt n) => JInt n
  | Some (NumFloat x) => JFloat x
  end.

Definition json_of_dict (d : dict canonical) : json :=
  JObject (map (fun kv => (fst kv, json_of_canonical (snd kv))) d).

Definition json_of_case (case : fixture_case) : json :=
  JObject
    [("caseId", JString (caseId case));
     ("sourcePythonTest", JArray (map JString (sourcePythonTest case)));
     ("inputFile", JString (inputFile case));
     ("expectedFormat", JString (expectedFormat case));
     ("expectedCoreInfo",
       JObject [("length", json_of_number (length (expectedCoreInfo case)));
                ("bitrate", json_of_number (bitrate (expectedCoreInfo case)));
                ("sampleRate", json_of_number (sampleRate (expectedCoreInfo case)));
                ("channels", json_of_number (channels (expectedCoreInfo case)));
                ("bitsPerSample", json_of_number (bitsPerSample (expectedCoreInfo case)))]);
     ("expectedTags", json_of_dict (expectedTags case));
     ("expectedExtensions", json_of_dict (expectedExtensions case));
     ("expectedError",
       match expectedError case with
       | None => JNull
       | Some err =>
           JObject [("code", JString (code err)); ("message", JString (message err))]
       end)].

(** [d[key].append(x)] on a [defaultdict(list)] *)
Definition dict_append {A : Type} (d : dict (list A)) (key : string) (x : A)
  : dict (list A) :=
  match dict_get d key with
  | Some l => dict_set d key (l ++ [x])%list
  | None => dict_set d key [x]
  end.

(** [mapping.get(filename, [])]: the tests that name the file. *)
Definition mapping_get (mapping : dict (list string)) (filename : string)
  : list string :=
  match dict_get mapping filename with
  | Some l => l
  | None => []
  end.

Section Main.

Context {rt : Runtime}.
Variable mutagen_File : decoder.

(** The first loop of [main]. *)
Fixpoint build_cases (mapping : dict (list string)) (files : list string)
  (by_format : dict (list fixture_case)) : result (dict (list fixture_case)) :=
  match files with
  | [] => Ok by_format
  | filename :: files' =>
      case <- build_case mutagen_File filename (mapping_get mapping filename) ;;
      build_cases mapping files' (dict_append by_format (expectedFormat case) case)
  end.

(** The document written for one format, with its path and its entry of
    the index. *)
Definition write_format (group : string * list fixture_case)
  : (string * json) * json :=
  let (fmt, cases) := group in
  let cases := sort_by inputFile cases in
  let out_name := fmt ++ ".json" in
  let out_path := OsPath.join OUTPUT_DIR out_name in
  ((out_path,
    JObject [("format", JString fmt); ("cases", JArray (map json_of_case cases))]),
   JObject [("format", JString fmt); ("file", JString out_name);
            ("count", JInt (Z.of_nat (List.length cases)))]).

(** [main] on the outcome [(files, mapping)] of [parse_referenced_files]:
    the documents written, each with its path, in the order they are
    written.  What [json.dump] writes is a function of the document. *)
Definition main (files : list string) (mapping : dict (list string))
  : result (list (string * json)) :=
  match files with
  | [] => Raise "no referenced fixtures found"
  | _ =>
      by_format <- build_cases mapping files [] ;;
      let written := map write_format (sort_by fst by_format) in
      Ok (map fst written ++
          [(OsPath.join OUTPUT_DIR "index.json",
            JObject [("files", JArray (map snd written))])])%list
  end.

End Main.

(** ** Definitions used to state the properties *)

(** The value with its [text] attribute removed. *)
Definition without_text (value : pyval) : pyval :=
  PyVal (shape_of value)
    {| has_imageformat := has_imageformat (attrs_of value);
       to_bytes := to_bytes (attrs_of value);
       text_attr := None;
       to_str := to_str (attrs_of value);
       to_float := to_float (attrs_of value) |}.

(** The shapes [collect_extensions] and [safe_number] have no rule of their
    own for. *)
Definition other_shape (value : pyval) : bool :=
  match shape_of value with
  | SNone | SBool _ | SInt _ | SFloat _ => false
  | _ => true
  end.

Section TagEntries.

Context {rt : Runtime}.

(** What one entry of the tag container contributes to the mapping:
    its string key and the normalized value, when the key is wanted and
    the value normalizes to one. *)
Definition kept_entry (entry : pyval * pyval) : option (string * canonical) :=
  match py_str (fst entry) with
  | Ok key_str =>
      if key_wanted key_str then
        match normalize_tag_value (snd entry) with
        | Ok (Some c) => Some (key_str, c)
        | _ => None
        end
      else None
  | Raise _ => None
  end.

(** The value of the last entry of [items] kept under [key]. *)
Fixpoint last_kept (items : list (pyval * pyval)) (key : string)
  : option canonical :=
  match items with
  | [] => None
  | entry :: items' =>
      match last_kept items' key with
      | Some c => Some c
      | None =>
          match kept_entry entry with
          | Some (k, c) => if String.eqb k key then Some c else None
          | None => None
          end
      end
  end.




End TagEntries.

(** What the loop body of [collect_extensions] stores under [name]. *)
Definition stored_extension (info : info_object) (name : string)
  : option canonical :=
  match info_attr info name with
  | Some value =>
      match shape_of value with
      | SNone => None
      | _ => match extension_value value with
             | Ok stored => stored
             | Raise _ => None
             end
      end
  | None => None
  end.

(** ** Examples to run the definitions on *)

Module Examples.

Definition float_3 : Float.t := S754_finite false 6755399441055744 (-51).
Definition float_2_5 : Float.t := S754_finite false 5629499534213120 (-51).

(** A runtime to evaluate with.  Its digest and its decoder return the
    bytes as characters; it prints and reads two floats. *)
#[export] Instance runtime : Runtime := {|
  sha256_hexdigest := string_of_list_byte;
  utf8_decode_replace := string_of_list_byte;
  float_repr := fun x =>
    match x with
    | S754_finite false 6755399441055744 (-51) => "3.0"
    | S754_finite false 5629499534213120 (-51) => "2.5"
    | _ => "0.0"
    end;
  bytes_repr := fun raw => "b'" ++ string_of_list_byte raw ++ "'";
  parse_float := fun s =>
    if String.eqb s "3.0" then Ok float_3
    else if String.eqb s "2.5" then Ok float_2_5
    else if String.eqb s "nan" then Ok Float.nan
    else Raise "could not convert string to float";
  DATA_DIR := "/repo/tests/data";
  OUTPUT_DIR := "/repo/AudioMetadataParser/Example/Tests/Fixtures/golden"
|}.

(** An ID3 text frame: an object with a [text] attribute. *)
Definition text_frame (texts : list string) : pyval :=
  PyVal SObject
    {| has_imageformat := false;
       to_bytes := Raise "cannot convert 'TextFrame' object to bytes";
       text_attr := Some (Ok (map Ok texts));
       to_str := Ok (String.concat (String "000" "") texts);
       to_float := Raise "float() argument must be a string or a real number" |}.

(** An object whose [text] attribute cannot be iterated, printed as
    [printed]. *)
Definition broken_frame (printed : string) : pyval :=
  PyVal SObject
    {| has_imageformat := false;
       to_bytes := Raise "cannot convert 'Frame' object to bytes";
       text_attr := Some (Raise "'NoneType' object is not iterable");
       to_str := Ok printed;
       to_float := Raise "float() argument must be a string or a real number" |}.

(** 121 tag entries: one key the filter rejects, then [T1] ... [T120]. *)
Definition numbered_entry (n : nat) : pyval * pyval :=
  (plain_str ("T" ++ str_of_int (Z.of_nat n)), plain_int (Z.of_nat n)).

Definition crowded_items : list (pyval * pyval) :=
  (plain_str "REPLAYGAIN", plain_str "-6 dB") :: map numbered_entry (seq 1 120).

Definition crowded_audio : audio_file :=
  {| audio_tags := Some (Items crowded_items); audio_info := None |}.

(** A decoded MP3 with two tags and some technical info. *)
Definition mp3_audio : audio_file :=
  {| audio_tags := Some (Items
       [(plain_str "TPE1", text_frame ["Artist A"; "Artist B"]);
        (plain_str "PRIV", plain_bytes [x01; x02]);
        (plain_str "title", plain_list [] "[]")]);
     audio_info := Some
       [("length", plain_float float_2_5); ("bitrate", plain_int 128000);
        ("sample_rate", plain_int 44100); ("channels", plain_int 2);
        ("sketchy", plain_bool true); ("layer", plain_int 3);
        ("track_gain", plain_float Float.inf);
        ("encoder_info", plain_str "LAME")] |}.

(** A decoder that knows three files. *)
Definition sample_decoder : decoder := fun path =>
  if String.eqb path "/repo/tests/data/silence.mp3" then Ok (Some mp3_audio)
  else if String.eqb path "/repo/tests/data/empty.ofr" then Ok None
  else if String.eqb path "/repo/tests/data/many.flac" then Ok (Some crowded_audio)
  else Raise "bad magic bytes".





(** A decoded file whose info object has a boolean for [channels]. *)
Definition flag_audio : audio_file :=
  {| audio_tags := None;
     audio_info := Some [("channels", plain_bool true); ("length", plain_str "3.0")] |}.

Definition flag_decoder : decoder := fun _ => Ok (Some flag_audio).

End Examples.

(** ** Further definitions used to state properties *)

(** [c] does not occur in [s]. *)
Definition absent (c : ascii) (s : string) : Prop :=
  forall i last, Str.rfind_from c s i last = last.

(** The alias table [format_from_filename] tests its extension against,
    test by test. *)
Definition format_table : dict string :=
  [("mp3", "mp3"); ("flac", "flac");
   ("m4a", "m4a"); ("m4b", "m4a"); ("m4p", "m4a"); ("mp4", "mp4"); ("3g2", "m4a");
   ("wav", "wave"); ("wave", "wave");
   ("aif", "aiff"); ("aiff", "aiff"); ("aifc", "aiff");
   ("asf", "asf"); ("wma", "asf"); ("apev2", "apev2"); ("mpc", "musepack");
   ("wv", "wavpack"); ("tak", "tak"); ("dsf", "dsf");
   ("dff", "dsdiff"); ("dsdiff", "dsdiff");
   ("aac", "aac"); ("ac3", "ac3"); ("eac3", "eac3");
   ("ogg", "ogg"); ("oga", "ogg"); ("opus", "ogg"); ("spx", "ogg");
   ("oggtheora", "ogg"); ("oggflac", "ogg"); ("ogv", "ogg");
   ("tta", "trueAudio"); ("ofr", "optimFrog"); ("ofs", "optimFrog");
   ("mid", "smf"); ("smf", "smf"); ("ape", "monkeysAudio"); ("id3", "id3")].


(** Whether the loop body of [collect_extensions] stores something under
    [name]. *)
Definition extension_stored (info : info_object) (name : string) : bool :=
  match stored_extension info name with
  | Some _ => true
  | None => false
  end.

(** The order of a sort by a string key. *)
Definition key_le {A : Type} (key : A -> string) (a b : A) : Prop :=
  string_le (key a) (key b).

(** The cases of all the groups, group after group. *)
Definition all_cases (by_format : dict (list fixture_case)) : list fixture_case :=
  List.concat (map snd by_format).

(** The groups are keyed by the format of their cases, none is empty and
    no format has two groups. *)
Definition grouped (by_format : dict (list fixture_case)) : Prop :=
  NoDup (dict_keys by_format) /\
  forall fmt cases, dict_get by_format fmt = Some cases ->
    cases <> [] /\ forall c, In c cases -> expectedFormat c = fmt.

(** The cases of every group are in the order of their input files, and
    before the files still to come. *)
Definition ordered_before (by_format : dict (list fixture_case))
  (files : list string) : Prop :=
  forall fmt cases, dict_get by_format fmt = Some cases ->
    StronglySorted (key_le inputFile) cases /\
    forall c f, In c cases -> In f files -> string_le (inputFile c) f.

(** ** Reference scanner *)

Definition INCLUDED_TEST_FILES : list string :=
  ["test_mp3.py"; "test_id3.py"; "test_flac.py"; "test_mp4.py"; "test_wave.py";
   "test_aiff.py"; "test_asf.py"; "test_apev2.py"; "test_aac.py"; "test_ac3.py";
   "test_dsf.py"; "test_dsdiff.py"; "test_musepack.py"; "test_wavpack.py";
   "test_tak.py"; "test_monkeysaudio.py"; "test_trueaudio.py"; "test_optimfrog.py";
   "test_ogg.py"; "test_oggvorbis.py"; "test_oggopus.py"; "test_oggspeex.py";
   "test_oggtheora.py"; "test_oggflac.py"; "test_smf.py"].

(** The two compiled patterns of [parse_referenced_files]: a call
    [os.path.join(DATA_DIR, '<name>')], and [DATA_DIR, '<name>'] alone;
    the group of each is the name between the quotes. *)
Inductive pattern : Type :=
| JoinCall
| DataDirArgument.

Definition patterns : list pattern := [JoinCall; DataDirArgument].

(** The file system and the regular expressions, as the scanner uses them. *)
Class TestTree : Type := {
  TESTS_DIR : string;
  (** [os.path.exists(path)] *)
  path_exists : string -> bool;
  (** [os.path.isfile(path)] *)
  path_isfile : string -> bool;
  (** [open(path, "r", encoding="utf-8").read()] *)
  read_text : string -> result string;
  (** [[m.group(1) for m in pat.finditer(text)]] *)
  finditer : pattern -> string -> list string
}.

(** [found], a set, is the list of the names added to it, and [mapping]
    the [defaultdict(list)]. *)
Definition scan_state : Type := list string * dict (list string).

Section Scanner.

Context {rt : Runtime} {tree : TestTree}.

(** The body of the loop over the matches of one pattern. *)
Definition scan_match (test_file : string) (state : scan_state) (name : string)
  : scan_state :=
  let (found, mapping) := state in
  if String.eqb name "does" then state
  else if path_isfile (OsPath.join DATA_DIR name)
       then ((found ++ [name])%list, dict_append mapping name test_file)
       else state.

(** The body of the loop over the patterns. *)
Definition scan_pattern (test_file text : string) (state : scan_state)
  (pat : pattern) : scan_state :=
  fold_left (scan_match test_file) (finditer pat text) state.

(** The body of the loop over the test files. *)
Definition scan_test_file (state : scan_state) (test_file : string)
  : result scan_state :=
  let path := OsPath.join TESTS_DIR test_file in
  if negb (path_exists path) then Ok state
  else
    text <- read_text path ;;
    Ok (fold_left (scan_pattern test_file text) patterns state).

Fixpoint scan_test_files (test_files : list string) (state : scan_state)
  : result scan_state :=
  match test_files with
  | [] => Ok state
  | test_file :: test_files' =>
      state' <- scan_test_file state test_file ;;
      scan_test_files test_files' state'
  end.

Definition parse_referenced_files : result (list string * dict (list string)) :=
  state <- scan_test_files (sorted_set INCLUDED_TEST_FILES) ([], []) ;;
  Ok (sorted_set (fst state), snd state).

(** [main()], from the scan to the documents. *)
Definition run (mutagen_File : decoder) : result (list (string * json)) :=
  scan <- parse_referenced_files ;;
  main mutagen_File (fst scan) (snd scan).

(** The test file [test_file] names [name]: it is one of the included
    test files, it exists, and one of the patterns finds [name] in it. *)
Definition names_file (test_file name : string) : Prop :=
  In test_file INCLUDED_TEST_FILES /\
  path_exists (OsPath.join TESTS_DIR test_file) = true /\
  exists pat text,
    In pat patterns /\
    read_text (OsPath.join TESTS_DIR test_file) = Ok text /\
    In name (finditer pat text).

(** What the scanner keeps true of its state. *)
Definition scan_invariant (state : scan_state) : Prop :=
  NoDup (dict_keys (snd state)) /\
  (forall name, In name (fst state) <-> In name (dict_keys (snd state))) /\
  forall name tests, dict_get (snd state) name = Some tests ->
    tests <> [] /\ name <> "does" /\
    path_isfile (OsPath.join DATA_DIR name) = true /\
    forall test_file, In test_file tests -> names_file test_file name.

End Scanner.

(** ** Further examples *)

Module MoreExamples.

#[local] Existing Instance Examples.runtime.

(** A [bytearray], which prints as [bytearray(b'...')]. *)
Definition bytearray_value (raw : bytes) : pyval :=
  PyVal (SByteArray raw)
    {| has_imageformat := false;
       to_bytes := Ok raw;
       text_attr := None;
       to_str := Ok ("bytearray(b'" ++ string_of_list_byte raw ++ "')");
       to_float := Raise "float() argument must be a string or a real number" |}.

(** An MP4 cover: an instance of a subclass of [bytes] with an
    [imageformat] attribute. *)
Definition mp4_cover (raw : bytes) : pyval :=
  PyVal (SBytes raw)
    {| has_imageformat := true;
       to_bytes := Ok raw;
       text_attr := None;
       to_str := Ok "cover";
       to_float := Raise "could not convert string to float" |}.



(** A test directory with two of the included test files.  The first
    names two sample files, the word of a message and nothing else; the
    second a sample file and a file that is not there. *)
#[export] Instance tree : TestTree := {|
  TESTS_DIR := "/repo/tests";
  path_exists := fun path =>
    Str.mem path ["/repo/tests/test_mp3.py"; "/repo/tests/test_optimfrog.py"];
  path_isfile := fun path =>
    Str.mem path ["/repo/tests/data/silence.mp3"; "/repo/tests/data/empty.ofr";
                  "/repo/tests/data/corrupt.mp3"];
  read_text := fun path =>
    if String.eqb path "/repo/tests/test_mp3.py" then Ok "mp3 tests"
    else if String.eqb path "/repo/tests/test_optimfrog.py" then Ok "optimfrog tests"
    else Raise "No such file or directory";
  finditer := fun pat text =>
    if String.eqb text "mp3 tests" then
      match pat with
      | JoinCall => ["silence.mp3"; "does"; "corrupt.mp3"]
      | DataDirArgument => ["silence.mp3"; "does"; "corrupt.mp3"; "silence.mp3"]
      end
    else if String.eqb text "optimfrog tests" then
      match pat with
      | JoinCall => ["empty.ofr"]
      | DataDirArgument => ["empty.ofr"; "missing.ofr"]
      end
    else []
|}.

(** What the scanner returns on that directory. *)
Definition scanned_files : list string :=
  ["corrupt.mp3"; "empty.ofr"; "silence.mp3"].

Definition scanned_mapping : dict (list string) :=
  [("silence.mp3", ["test_mp3.py"; "test_mp3.py"; "test_mp3.py"]);
   ("corrupt.mp3", ["test_mp3.py"; "test_mp3.py"]);
   ("empty.ofr", ["test_optimfrog.py"; "test_optimfrog.py"])].



End MoreExamples.

(** * Properties *)

(** ** Helper lemmas *)

Lemma mem_In (s : string) (set : list string) : Str.mem s set = true <-> In s set.
Proof.
  unfold Str.mem. rewrite existsb_exists. split.
  - intros [x [Hin Heq]]. apply String.eqb_eq in Heq. now subst.
  - intros Hin. exists s. split; [assumption | apply String.eqb_refl].
Qed.

Lemma mem_false_not_In (s : string) (set : list string) :
  Str.mem s set = false <-> ~ In s set.
Proof.
  rewrite <- mem_In. destruct (Str.mem s set); split; congruence.
Qed.

(** Splits on the tests of an [if] chain, innermost scrutinee first. *)
Ltac split_ifs :=
  repeat match goal with
    | |- context [if ?b then _ else _] => destruct b eqn:?
    end.

Lemma format_of_ext_canonical (ext : string) : In (format_of_ext ext) canonical_formats.
Proof.
  unfold format_of_ext. split_ifs; simpl; tauto.
Qed.

Lemma format_of_ext_unknown (ext : string) :
  ~ In ext known_extensions -> format_of_ext ext = "unknown".
Proof.
  intros Hnot. unfold format_of_ext.
  repeat match goal with
    | |- context [if ?b then _ else _] =>
        destruct b eqn:Htest;
        [ exfalso; apply Hnot;
          first [ apply String.eqb_eq in Htest; subst; simpl; tauto
                | apply mem_In in Htest; simpl in Htest; simpl; intuition ]
        | clear Htest ]
    end.
  reflexivity.
Qed.

(** ** Format Classifier *)



(** ** Value Normalizer *)

Section NormalizerFacts.

Context {rt : Runtime}.

Lemma str_of_float_nonfinite (x : Float.t) :
  Float.isfinite x = false ->
  str_of_float x = "nan" \/ str_of_float x = "inf" \/ str_of_float x = "-inf".
Proof.
  destruct x as [s | s | | s m e]; simpl; try discriminate; intros _.
  - destruct s; auto.
  - auto.
Qed.

Lemma normalize_plain_float (x : Float.t) :
  normalize_tag_value (plain_float x) =
  if Float.isfinite x then Ok (Some (CDouble x))
  else Ok (Some (CText [str_of_float x])).
Proof.
  unfold normalize_tag_value, later_rules, scalar_rules, str_fallback. simpl.
  destruct (Float.isfinite x) eqn:Hfin; [reflexivity |].
  destruct (str_of_float_nonfinite x Hfin) as [H | [H | H]]; rewrite H; reflexivity.
Qed.

(** A [double] the normalizer returns is finite. *)
Lemma normalize_double_finite (value : pyval) (x : Float.t) :
  normalize_tag_value value = Ok (Some (CDouble x)) -> Float.isfinite x = true.
Proof.
  unfold normalize_tag_value, later_rules, sequence_rule, scalar_rules,
    str_fallback, binary_of, bind.
  destruct (hasattr_imageformat value).
  { destruct (py_bytes value); discriminate. }
  destruct (text_rule value); [discriminate |].
  destruct (shape_of value) as [ | b | n | y | s | raw | raw | raw | xs | xs | ];
    try discriminate;
    try (destruct (py_str value) as [text | e]; [| discriminate];
         destruct (String.eqb text ""); discriminate).
  - destruct (Float.isfinite y) eqn:Hfin.
    + intros H. now injection H as ->.
    + destruct (py_str value) as [text | e]; [| discriminate].
      destruct (String.eqb text ""); discriminate.
  - destruct (negb (Nat.eqb (List.length xs) 0) && forallb is_byteslike xs)%bool.
    { destruct (mapM py_bytes xs); discriminate. }
    destruct (forallb is_primitive xs).
    { destruct (mapM convert_element xs); discriminate. }
    destruct (py_str value) as [text | e]; [| discriminate].
    destruct (String.eqb text ""); discriminate.
  - destruct (negb (Nat.eqb (List.length xs) 0) && forallb is_byteslike xs)%bool.
    { destruct (mapM py_bytes xs); discriminate. }
    destruct (forallb is_primitive xs).
    { destruct (mapM convert_element xs); discriminate. }
    destruct (py_str value) as [text | e]; [| discriminate].
    destruct (String.eqb text ""); discriminate.
Qed.

End NormalizerFacts.

(** C1: what the code does on a non-finite float.  The float rule returns
    nothing for it, and the string rule that follows turns it into a
    one-element [text]: NaN becomes ["nan"], the infinities ["inf"] and
    ["-inf"].  The normalizer yields a value, not absence. *)
Theorem normalize_nonfinite_float_is_text `{rt : Runtime} :
  normalize_tag_value (plain_float Float.nan) = Ok (Some (CText ["nan"])) /\
  normalize_tag_value (plain_float Float.inf) = Ok (Some (CText ["inf"])) /\
  normalize_tag_value (plain_float Float.neg_inf) = Ok (Some (CText ["-inf"])) /\
  (forall x, Float.isfinite x = false ->
     exists text, normalize_tag_value (plain_float x) = Ok (Some (CText [text]))).
Proof.
  repeat split; try reflexivity.
  intros x Hfin. exists (str_of_float x).
  rewrite normalize_plain_float, Hfin. reflexivity.
Qed.

Section FallThrough.

Context {rt : Runtime}.

Lemma text_rule_without_text (value : pyval) : text_rule (without_text value) = None.
Proof. reflexivity. Qed.

Lemma later_rules_without_text (value : pyval) :
  later_rules (without_text value) = later_rules value.
Proof. destruct value as [sh a]. reflexivity. Qed.

Lemma normalize_later_rules (value : pyval) :
  hasattr_imageformat value = false ->
  text_rule value = None ->
  normalize_tag_value value = later_rules value.
Proof.
  intros Himg Htext. unfold normalize_tag_value. now rewrite Himg, Htext.
Qed.

Lemma later_rules_sequence (value : pyval) (r : result (option canonical)) :
  sequence_rule value = Some r -> later_rules value = r.
Proof.
  unfold later_rules, sequence_rule.
  destruct (shape_of value); try discriminate; intros H; now rewrite H.
Qed.

End FallThrough.

(** C6: a value that reaches the text rule with a [text] attribute whose
    conversion to strings raises is normalized by the rules after the text
    rule, the error being dropped: the outcome is the one of the same
    value without a [text] attribute, that is the [binary] of a byte
    sequence, the outcome of the collection rule where that one returns,
    the [bool], [int] or [double] of a primitive, and otherwise the one of
    the string fallback. *)
Theorem normalize_text_error_falls_through `{rt : Runtime}
  (value : pyval) (e : exn) :
  hasattr_imageformat value = false ->
  text_conversion value = Some (Raise e) ->
  normalize_tag_value value = later_rules value /\
  normalize_tag_value value = normalize_tag_value (without_text value) /\
  (forall raw, shape_of value = SBytes raw ->
     normalize_tag_value value = Ok (Some (binary_of raw))) /\
  (forall r, sequence_rule value = Some r -> normalize_tag_value value = r) /\
  (forall b, shape_of value = SBool b ->
     normalize_tag_value value = Ok (Some (CBool b))) /\
  (forall n, shape_of value = SInt n ->
     normalize_tag_value value = Ok (Some (CInt n))) /\
  (forall x, shape_of value = SFloat x -> Float.isfinite x = true ->
     normalize_tag_value value = Ok (Some (CDouble x))) /\
  (forall text, shape_of value = SObject -> py_str value = Ok text ->
     normalize_tag_value value =
     Ok (if String.eqb text "" then None else Some (CText [text]))).
Proof.
  intros Himg Hconv.
  assert (Htext : text_rule value = None).
  { unfold text_rule. now rewrite Hconv. }
  assert (Hlater : normalize_tag_value value = later_rules value).
  { now apply normalize_later_rules. }
  split; [exact Hlater |].
  split.
  { rewrite Hlater. symmetry.
    rewrite <- (later_rules_without_text value).
    apply normalize_later_rules.
    - destruct value as [sh a]. exact Himg.
    - apply text_rule_without_text. }
  rewrite Hlater. unfold later_rules, scalar_rules, str_fallback.
  repeat split.
  - intros raw Hsh. now rewrite Hsh.
  - intros r Hseq. rewrite Hseq.
    unfold sequence_rule in Hseq.
    destruct (shape_of value); try discriminate; reflexivity.
  - intros b Hsh. unfold sequence_rule. now rewrite Hsh.
  - intros n Hsh. unfold sequence_rule. now rewrite Hsh.
  - intros x Hsh Hfin. unfold sequence_rule. now rewrite Hsh, Hfin.
  - intros text Hsh Hstr. unfold sequence_rule. rewrite Hsh, Hstr. simpl.
    now destruct (String.eqb text "").
Qed.

Lemma normalize_text_error_falls_through_witness :
  hasattr_imageformat (Examples.broken_frame "TIT2") = false /\
  text_conversion (Examples.broken_frame "TIT2") =
    Some (Raise "'NoneType' object is not iterable") /\
  normalize_tag_value (rt := Examples.runtime) (Examples.broken_frame "TIT2") =
    Ok (Some (CText ["TIT2"])).
Proof.
  split; [reflexivity |]. split; [reflexivity |].
  destruct (normalize_text_error_falls_through (rt := Examples.runtime)
              (Examples.broken_frame "TIT2")
              "'NoneType' object is not iterable" eq_refl eq_refl) as [H _].
  rewrite H. reflexivity.
Defined.

(** C9: an empty list or tuple that reaches the collection rule is
    normalized to the [text] with no string: the all-bytes branch asks for
    a non-empty sequence, and every element of an empty sequence is a
    primitive.  So are the plain empty list and the plain empty tuple. *)
Theorem normalize_empty_sequence `{rt : Runtime} (value : pyval) :
  shape_of value = SList [] \/ shape_of value = STuple [] ->
  hasattr_imageformat value = false ->
  text_rule value = None ->
  sequence_rule value = Some (Ok (Some (CText []))) /\
  normalize_tag_value value = Ok (Some (CText [])) /\
  (forall printed, normalize_tag_value (plain_list [] printed) = Ok (Some (CText []))) /\
  (forall printed, normalize_tag_value (plain_tuple [] printed) = Ok (Some (CText []))).
Proof.
  intros Hshape Himg Htext.
  assert (Hseq : sequence_rule value = Some (Ok (Some (CText [])))).
  { unfold sequence_rule. destruct Hshape as [H | H]; rewrite H; reflexivity. }
  split; [exact Hseq |].
  split; [| split; reflexivity].
  rewrite (normalize_later_rules value Himg Htext).
  now apply later_rules_sequence.
Qed.

Lemma normalize_empty_sequence_witness :
  (shape_of (plain_tuple [] "()") = SList [] \/ shape_of (plain_tuple [] "()") = STuple []) /\
  hasattr_imageformat (plain_tuple [] "()") = false /\
  text_rule (plain_tuple [] "()") = None /\
  normalize_tag_value (rt := Examples.runtime) (plain_tuple [] "()") = Ok (Some (CText [])).
Proof.
  split; [right; reflexivity |]. split; [reflexivity |]. split; [reflexivity |].
  apply (normalize_empty_sequence (rt := Examples.runtime) (plain_tuple [] "()")
           (or_intror eq_refl) eq_refl eq_refl).
Defined.

(** ** Case Builder *)

Section CaseBuilderFacts.

Context {rt : Runtime}.
Variable mutagen_File : decoder.

(** The case of a file the decoder returns a decoded file for. *)
Lemma build_case_decoded (filename : string) (source_tests : list string)
  (audio : audio_file) (case : fixture_case) :
  mutagen_File (OsPath.join DATA_DIR filename) = Ok (Some audio) ->
  build_case mutagen_File filename source_tests = Ok case ->
  expectedError case = None /\
  expectedCoreInfo case =
    match audio_info audio with
    | Some info => core_info_of info
    | None => empty_core_info
    end /\
  collect_tags audio = Ok (expectedTags case) /\
  collect_extensions audio = Ok (expectedExtensions case).
Proof.
  intros Hdec. unfold build_case. rewrite Hdec. unfold bind.
  destruct (collect_tags audio) as [tags | e]; [| discriminate].
  destruct (collect_extensions audio) as [ext | e]; [| discriminate].
  intros H. injection H as <-.
  destruct (audio_info audio); simpl; auto.
Qed.

(** The case of a file the decoder does not return a decoded file for. *)
Lemma build_case_error (filename : string) (source_tests : list string)
  (case : fixture_case) (err : error_info) :
  build_case mutagen_File filename source_tests = Ok case ->
  expectedError case = Some err ->
  case = set_expectedError (initial_case filename source_tests) err.
Proof.
  unfold build_case.
  destruct (mutagen_File (OsPath.join DATA_DIR filename)) as [[audio |] | exc].
  - unfold bind.
    destruct (collect_tags audio) as [tags | e]; [| discriminate].
    destruct (collect_extensions audio) as [ext | e]; [| discriminate].
    intros H. injection H as <-.
    destruct (audio_info audio); simpl; discriminate.
  - intros H. injection H as <-. simpl. intros H. now injection H as <-.
  - intros H. injection H as <-. simpl. intros H. now injection H as <-.
Qed.

Lemma core_field_bool (info : info_object) (name : string) (value : pyval) (b : bool) :
  info_attr info name = Some value -> shape_of value = SBool b ->
  core_field info name = Some (NumBool b).
Proof.
  intros Hattr Hshape. unfold core_field, safe_number. now rewrite Hattr, Hshape.
Qed.

End CaseBuilderFacts.

(** C3, as the code has it: when the decoder returns [None] without
    raising, [build_case] returns a case whose [expectedError] has the code
    "unsupportedFormat" and the message "mutagen returned None". *)
Theorem build_case_no_result `{rt : Runtime} (mutagen_File : decoder)
  (filename : string) (source_tests : list string) :
  mutagen_File (OsPath.join DATA_DIR filename) = Ok None ->
  exists case,
    build_case mutagen_File filename source_tests = Ok case /\
    expectedError case =
      Some {| code := "unsupportedFormat"; message := "mutagen returned None" |}.
Proof.
  intros Hdec. unfold build_case. rewrite Hdec.
  eexists. split; reflexivity.
Qed.

Lemma build_case_no_result_witness :
  Examples.sample_decoder (OsPath.join (DATA_DIR (Runtime := Examples.runtime)) "empty.ofr")
    = Ok None /\
  exists case,
    build_case (rt := Examples.runtime) Examples.sample_decoder "empty.ofr" [] = Ok case /\
    expectedError case =
      Some {| code := "unsupportedFormat"; message := "mutagen returned None" |}.
Proof.
  split; [reflexivity |].
  apply (build_case_no_result (rt := Examples.runtime) Examples.sample_decoder
           "empty.ofr" [] eq_refl).
Defined.

(** C3, as the specification words it, fails: on a file the decoder
    returns [None] for, the message recorded is not "no result". *)
Lemma build_case_no_result_message :
  Examples.sample_decoder (OsPath.join (DATA_DIR (Runtime := Examples.runtime)) "empty.ofr")
    = Ok None /\
  ~ (exists case,
       build_case (rt := Examples.runtime) Examples.sample_decoder "empty.ofr" [] = Ok case /\
       expectedError case =
         Some {| code := "unsupportedFormat"; message := "no result" |}).
Proof.
  split; [reflexivity |].
  intros [case [Hcase Herr]].
  vm_compute in Hcase. injection Hcase as <-.
  simpl in Herr. discriminate Herr.
Qed.

(** C4: a case [build_case] returns with an [expectedError] has no
    expected tag, no expected extension, and none of the five fields of
    its [expectedCoreInfo]. *)
Theorem build_case_error_exclusive `{rt : Runtime} (mutagen_File : decoder)
  (filename : string) (source_tests : list string) (case : fixture_case) :
  build_case mutagen_File filename source_tests = Ok case ->
  expectedError case <> None ->
  expectedTags case = [] /\
  expectedExtensions case = [] /\
  length (expectedCoreInfo case) = None /\
  bitrate (expectedCoreInfo case) = None /\
  sampleRate (expectedCoreInfo case) = None /\
  channels (expectedCoreInfo case) = None /\
  bitsPerSample (expectedCoreInfo case) = None.
Proof.
  intros Hcase Herr.
  destruct (expectedError case) as [err |] eqn:Heq; [| congruence].
  rewrite (build_case_error mutagen_File filename source_tests case err Hcase Heq).
  simpl. repeat split.
Qed.

Lemma build_case_error_exclusive_witness :
  exists case,
    build_case (rt := Examples.runtime) Examples.sample_decoder "corrupt.mp3" [] = Ok case /\
    expectedError case = Some {| code := "invalidHeader"; message := "bad magic bytes" |} /\
    expectedTags case = [] /\
    expectedExtensions case = [] /\
    expectedCoreInfo case = empty_core_info.
Proof.
  eexists. split; [reflexivity |]. split; [reflexivity |].
  destruct (build_case_error_exclusive (rt := Examples.runtime) Examples.sample_decoder
              "corrupt.mp3" [] _ eq_refl) as [Htags [Hext _]].
  - discriminate.
  - split; [exact Htags |]. split; [exact Hext |]. reflexivity.
Defined.

(** C10: [safe_number] returns a boolean as it is, so that each of the
    five fields of [expectedCoreInfo] holds the boolean that the info
    attribute it is read from is; an int and a finite float are returned
    as they are too, and the snapping of a near-integer float to an int is
    reached only by a value that is none of [None], bool, int and float and
    that [float()] converts. *)
Theorem safe_number_keeps_bool `{rt : Runtime} :
  (forall value b, shape_of value = SBool b -> safe_number value = Some (NumBool b)) /\
  (forall (mutagen_File : decoder) filename source_tests audio info case,
     mutagen_File (OsPath.join DATA_DIR filename) = Ok (Some audio) ->
     audio_info audio = Some info ->
     build_case mutagen_File filename source_tests = Ok case ->
     forall value b, shape_of value = SBool b ->
       (info_attr info "length" = Some value ->
        length (expectedCoreInfo case) = Some (NumBool b)) /\
       (info_attr info "bitrate" = Some value ->
        bitrate (expectedCoreInfo case) = Some (NumBool b)) /\
       (info_attr info "sample_rate" = Some value ->
        sampleRate (expectedCoreInfo case) = Some (NumBool b)) /\
       (info_attr info "channels" = Some value ->
        channels (expectedCoreInfo case) = Some (NumBool b)) /\
       (info_attr info "bits_per_sample" = Some value ->
        bitsPerSample (expectedCoreInfo case) = Some (NumBool b))) /\
  (forall value n, shape_of value = SInt n -> safe_number value = Some (NumInt n)) /\
  (forall value x, shape_of value = SFloat x ->
     safe_number value = if Float.isfinite x then Some (NumFloat x) else None) /\
  (forall value v, other_shape value = true -> py_float value = Ok v ->
     Float.isfinite v = true ->
     safe_number value =
       if near_integer v then Some (NumInt (Float.trunc v)) else Some (NumFloat v)) /\
  (forall value e, other_shape value = true -> py_float value = Raise e ->
     safe_number value = None).
Proof.
  split; [| split; [| split; [| split; [| split]]]].
  - intros value b Hshape. unfold safe_number. now rewrite Hshape.
  - intros mutagen_File filename source_tests audio info case Hdec Hinfo Hcase value b Hshape.
    destruct (build_case_decoded mutagen_File filename source_tests audio case Hdec Hcase)
      as [_ [Hcore _]].
    rewrite Hinfo in Hcore. rewrite Hcore. simpl.
    repeat split; intros Hattr; now apply core_field_bool with (value := value).
  - intros value n Hshape. unfold safe_number. now rewrite Hshape.
  - intros value x Hshape. unfold safe_number. now rewrite Hshape.
  - intros value v Hother Hfloat Hfin. unfold safe_number, other_shape in *.
    destruct (shape_of value); try discriminate;
      unfold convert_number; now rewrite Hfloat, Hfin.
  - intros value e Hother Hfloat. unfold safe_number, other_shape in *.
    destruct (shape_of value); try discriminate;
      unfold convert_number; now rewrite Hfloat.
Qed.

Lemma safe_number_keeps_bool_witness :
  safe_number (plain_bool true) = Some (NumBool true) /\
  (exists case,
     build_case (rt := Examples.runtime) Examples.flag_decoder "flag.wav" [] = Ok case /\
     channels (expectedCoreInfo case) = Some (NumBool true)) /\
  safe_number (plain_float (rt := Examples.runtime) Examples.float_3) =
    Some (NumFloat Examples.float_3) /\
  safe_number (plain_str (rt := Examples.runtime) "3.0") = Some (NumInt 3) /\
  safe_number (plain_str (rt := Examples.runtime) "2.5") = Some (NumFloat Examples.float_2_5).
Proof.
  destruct (safe_number_keeps_bool (rt := Examples.runtime))
    as [Hbool [Hcase [_ [Hfloat [Hother _]]]]].
  split; [apply (Hbool (plain_bool true) true eq_refl) |].
  split.
  { eexists. split; [reflexivity |].
    destruct (Hcase Examples.flag_decoder "flag.wav" [] Examples.flag_audio
                [("channels", plain_bool true);
                 ("length", plain_str (rt := Examples.runtime) "3.0")] _
                eq_refl eq_refl eq_refl (plain_bool true) true eq_refl)
      as [_ [_ [_ [Hchannels _]]]].
    exact (Hchannels eq_refl). }
  split; [apply (Hfloat (plain_float (rt := Examples.runtime) Examples.float_3)
                   Examples.float_3 eq_refl) |].
  split.
  - apply (Hother (plain_str (rt := Examples.runtime) "3.0") Examples.float_3
             eq_refl eq_refl eq_refl).
  - apply (Hother (plain_str (rt := Examples.runtime) "2.5") Examples.float_2_5
             eq_refl eq_refl eq_refl).
Defined.

(** ** Dictionaries *)

Section DictFacts.

Context {V : Type}.

Lemma dict_get_set (d : dict V) (key key' : string) (v : V) :
  dict_get (dict_set d key v) key' =
  if String.eqb key key' then Some v else dict_get d key'.
Proof.
  induction d as [| [k w] d IH]; simpl.
  - reflexivity.
  - destruct (String.eqb k key) eqn:Hk; simpl.
    + apply String.eqb_eq in Hk. subst k.
      now destruct (String.eqb key key').
    + rewrite IH. destruct (String.eqb k key') eqn:Hk'; [| reflexivity].
      apply String.eqb_eq in Hk'. subst k. now rewrite String.eqb_sym, Hk.
Qed.


Lemma dict_set_keys_In (d : dict V) (key : string) (v : V) (k : string) :
  In k (dict_keys (dict_set d key v)) -> k = key \/ In k (dict_keys d).
Proof.
  induction d as [| [k' w] d IH]; simpl.
  - intros [H | []]. now left.
  - destruct (String.eqb k' key) eqn:Hk; simpl.
    + tauto.
    + intros [H | H]; [tauto |]. destruct (IH H); tauto.
Qed.

Lemma dict_set_NoDup (d : dict V) (key : string) (v : V) :
  NoDup (dict_keys d) -> NoDup (dict_keys (dict_set d key v)).
Proof.
  induction d as [| [k w] d IH]; simpl; intros Hnd.
  - constructor; [intros [] | constructor].
  - inversion Hnd as [| ? ? Hnotin Hnd']; subst.
    destruct (String.eqb k key) eqn:Hk; simpl.
    + now constructor.
    + constructor; [| now apply IH].
      intros Hin. apply dict_set_keys_In in Hin. destruct Hin as [-> | Hin].
      * now rewrite String.eqb_refl in Hk.
      * contradiction.
Qed.

Lemma dict_get_In (d : dict V) (key : string) (v : V) :
  NoDup (dict_keys d) -> (In (key, v) d <-> dict_get d key = Some v).
Proof.
  induction d as [| [k w] d IH]; simpl; intros Hnd.
  - split; [intros [] | discriminate].
  - inversion Hnd as [| ? ? Hnotin Hnd']; subst.
    destruct (String.eqb k key) eqn:Hk.
    + apply String.eqb_eq in Hk. subst k. split.
      * intros [H | H]; [now injection H as -> |].
        exfalso. apply Hnotin. now apply (in_map fst) in H.
      * intros H. injection H as ->. now left.
    + rewrite <- (IH Hnd'). split; [| tauto].
      intros [H | H]; [| exact H].
      injection H as -> ->. now rewrite String.eqb_refl in Hk.
Qed.

End DictFacts.

(** ** Extension-Info Collector *)

Section ExtensionFacts.

Variable info : info_object.

Lemma collect_extension_get (ext ext' : dict canonical) (name key : string) :
  collect_extension info ext name = Ok ext' ->
  dict_get ext' key =
    if String.eqb name key then
      match stored_extension info name with
      | Some c => Some c
      | None => dict_get ext key
      end
    else dict_get ext key.
Proof.
  unfold collect_extension, stored_extension.
  assert (Hsame : forall d : dict canonical,
             dict_get d key = if String.eqb name key then dict_get d key else dict_get d key).
  { intros d. now destruct (String.eqb name key). }
  destruct (info_attr info name) as [value |].
  2: { intros H. injection H as <-. apply Hsame. }
  destruct (shape_of value) eqn:Hshape;
    try (intros H; injection H as <-; apply Hsame);
    unfold bind; destruct (extension_value value) as [[c |] | e];
    try discriminate;
    intros H; injection H as <-;
    try apply Hsame; rewrite dict_get_set; now destruct (String.eqb name key).
Qed.

Lemma collect_extensions_loop_get (names : list string) :
  NoDup names ->
  forall (ext ext' : dict canonical) (key : string),
    collect_extensions_loop info names ext = Ok ext' ->
    dict_get ext' key =
      if Str.mem key names then
        match stored_extension info key with
        | Some c => Some c
        | None => dict_get ext key
        end
      else dict_get ext key.
Proof.
  induction names as [| name names IH]; intros Hnd ext ext' key; simpl.
  - intros H. now injection H as <-.
  - inversion Hnd as [| ? ? Hnotin Hnd']; subst.
    unfold bind. destruct (collect_extension info ext name) as [ext1 | e] eqn:Hstep;
      [| discriminate].
    intros Hloop. rewrite (IH Hnd' ext1 ext' key Hloop).
    rewrite (collect_extension_get ext ext1 name key Hstep).
    unfold Str.mem at 2. simpl. fold (Str.mem key names).
    destruct (String.eqb key name) eqn:Hk.
    + apply String.eqb_eq in Hk. subst key. rewrite String.eqb_refl.
      apply mem_false_not_In in Hnotin. rewrite Hnotin. reflexivity.
    + rewrite String.eqb_sym, Hk. simpl.
      destruct (Str.mem key names); reflexivity.
Qed.

Lemma collect_extensions_loop_returns (names : list string) :
  (forall name value, In name names -> info_attr info name = Some value ->
     other_shape value = true -> exists text, py_str value = Ok text) ->
  forall ext, exists ext', collect_extensions_loop info names ext = Ok ext'.
Proof.
  induction names as [| name names IH]; intros Hstr ext; simpl.
  - now exists ext.
  - assert (Hstep : exists ext1, collect_extension info ext name = Ok ext1).
    { unfold collect_extension.
      destruct (info_attr info name) as [value |] eqn:Hattr; [| now exists ext].
      specialize (Hstr name value (or_introl eq_refl) Hattr).
      unfold other_shape, extension_value in *.
      destruct (shape_of value); simpl;
        try (eexists; reflexivity);
        try (destruct (Hstr eq_refl) as [text ->]; eexists; reflexivity).
      destruct (Float.isfinite x); eexists; reflexivity. }
    destruct Hstep as [ext1 ->]. simpl.
    apply IH. intros name' value Hin. apply Hstr. now right.
Qed.

End ExtensionFacts.

Lemma extension_attrs_NoDup : NoDup extension_attrs.
Proof.
  unfold extension_attrs.
  repeat (constructor; [simpl; intuition discriminate |]).
  constructor.
Qed.

(** C7: when the string conversions it needs succeed, [collect_extensions]
    returns a mapping in which every attribute of the allow-list that the
    info object has holds: nothing when the value is [None]; the [int] 1
    or 0 for the boolean true or false; the [int] of an integer; the
    [double] of a finite float and nothing for a non-finite one; and for
    any other value the [text] whose one string is [str] of the value. *)
Theorem collect_extensions_kinds (audio : audio_file) (info : info_object) :
  audio_info audio = Some info ->
  (forall name value, In name extension_attrs -> info_attr info name = Some value ->
     other_shape value = true -> exists text, py_str value = Ok text) ->
  exists ext,
    collect_extensions audio = Ok ext /\
    forall name value, In name extension_attrs -> info_attr info name = Some value ->
      match shape_of value with
      | SNone => dict_get ext name = None
      | SBool b => dict_get ext name = Some (CInt (if b then 1 else 0))
      | SInt n => dict_get ext name = Some (CInt n)
      | SFloat x =>
          dict_get ext name = if Float.isfinite x then Some (CDouble x) else None
      | _ => exists text,
          py_str value = Ok text /\ dict_get ext name = Some (CText [text])
      end.
Proof.
  intros Hinfo Hstr. unfold collect_extensions. rewrite Hinfo.
  destruct (collect_extensions_loop_returns info extension_attrs Hstr []) as [ext Hloop].
  exists ext. split; [exact Hloop |].
  intros name value Hin Hattr.
  rewrite (collect_extensions_loop_get info extension_attrs extension_attrs_NoDup
             [] ext name Hloop).
  apply mem_In in Hin. rewrite Hin.
  specialize (Hstr name value (proj1 (mem_In _ _) Hin) Hattr).
  unfold stored_extension, extension_value, other_shape in *. rewrite Hattr.
  destruct (shape_of value); simpl;
    try reflexivity;
    try (destruct (Hstr eq_refl) as [text Htext]; exists text; rewrite Htext; now split).
  now destruct (Float.isfinite x).
Qed.

Lemma collect_extensions_kinds_witness :
  exists ext,
    collect_extensions Examples.mp3_audio = Ok ext /\
    dict_get ext "layer" = Some (CInt 3) /\
    dict_get ext "track_gain" = None /\
    dict_get ext "encoder_info" = Some (CText ["LAME"]).
Proof.
  destruct (collect_extensions_kinds Examples.mp3_audio
              [("length", plain_float Examples.float_2_5); ("bitrate", plain_int 128000);
               ("sample_rate", plain_int 44100); ("channels", plain_int 2);
               ("sketchy", plain_bool true); ("layer", plain_int 3);
               ("track_gain", plain_float Float.inf);
               ("encoder_info", plain_str "LAME")] eq_refl) as [ext [Hext Hkinds]].
  - intros name value Hin Hattr _. simpl in Hin.
    repeat (destruct Hin as [<- | Hin];
            [simpl in Hattr; try discriminate Hattr;
             injection Hattr as <-; eexists; reflexivity |]).
    destruct Hin.
  - exists ext. split; [exact Hext |].
    split; [exact (Hkinds "layer" (plain_int 3)
                     (or_intror (or_introl eq_refl)) eq_refl) |].
    split.
    + exact (Hkinds "track_gain" (plain_float Float.inf)
               (proj1 (mem_In "track_gain" extension_attrs) eq_refl) eq_refl).
    + destruct (Hkinds "encoder_info" (plain_str "LAME")
                  (proj1 (mem_In "encoder_info" extension_attrs) eq_refl) eq_refl)
        as [text [Htext Hget]].
      injection Htext as <-. exact Hget.
Defined.

(** ** Tag Collector *)

Section TagFacts.

Context {rt : Runtime}.

(** The loop body, when it does not raise, sets the key of a kept entry
    and leaves the mapping alone otherwise. *)
Lemma collect_tag_kept (tags tags' : dict canonical) (entry : pyval * pyval) :
  collect_tag tags entry = Ok tags' ->
  tags' = match kept_entry entry with
          | Some (key_str, c) => dict_set tags key_str c
          | None => tags
          end.
Proof.
  destruct entry as [key value]. unfold collect_tag, kept_entry, key_wanted, bind.
  cbn [fst snd]. destruct (py_str key) as [key_str | e]; [| discriminate].
  destruct (String.eqb key_str "");
    destruct (Str.startswith_any wanted_prefixes key_str);
    destruct (Str.mem (Str.upper key_str) common_names);
    cbn [negb andb orb];
    try (intros H; now injection H as <-);
    destruct (normalize_tag_value value) as [[c |] | e]; try discriminate;
    intros H; now injection H as <-.
Qed.




Lemma collect_tags_loop_NoDup (items : list (pyval * pyval)) :
  forall tags tags', collect_tags_loop items tags = Ok tags' ->
    NoDup (dict_keys tags) -> NoDup (dict_keys tags').
Proof.
  induction items as [| entry items IH]; intros tags tags'; simpl.
  - intros H. now injection H as <-.
  - unfold bind. destruct (collect_tag tags entry) as [tags1 | e] eqn:Hstep;
      [| discriminate].
    intros Hloop Hnd. apply (IH tags1 tags' Hloop).
    apply collect_tag_kept in Hstep. subst tags1.
    destruct (kept_entry entry) as [[k c] |]; [now apply dict_set_NoDup | exact Hnd].
Qed.

Lemma collect_tags_loop_get (items : list (pyval * pyval)) (key : string) :
  forall tags tags', collect_tags_loop items tags = Ok tags' ->
    dict_get tags' key =
      match last_kept items key with
      | Some c => Some c
      | None => dict_get tags key
      end.
Proof.
  induction items as [| entry items IH]; intros tags tags'; simpl.
  - intros H. now injection H as <-.
  - unfold bind. destruct (collect_tag tags entry) as [tags1 | e] eqn:Hstep;
      [| discriminate].
    intros Hloop. rewrite (IH tags1 tags' Hloop).
    destruct (last_kept items key) as [c |]; [reflexivity |].
    apply collect_tag_kept in Hstep. subst tags1.
    destruct (kept_entry entry) as [[k c] |]; [| reflexivity].
    rewrite dict_get_set. now destruct (String.eqb k key).
Qed.

End TagFacts.






(** ** Sorting *)

Lemma ascii_compare_lt_trans (x y z : ascii) :
  Ascii.compare x y = Lt -> Ascii.compare y z = Lt -> Ascii.compare x z = Lt.
Proof.
  unfold Ascii.compare. rewrite !N.compare_lt_iff. apply N.lt_trans.
Qed.

Lemma string_le_trans (a b c : string) :
  string_le a b -> string_le b c -> string_le a c.
Proof.
  unfold string_le. revert b c.
  induction a as [| x a IH]; intros [| y b] [| z c];
    unfold String.leb; simpl; try congruence.
  destruct (Ascii.compare x y) eqn:Hxy; try congruence.
  - apply Ascii.compare_eq_iff in Hxy. subst y.
    destruct (Ascii.compare x z) eqn:Hxz; try congruence.
    intros Hab Hbc. apply (IH b c); unfold String.leb.
    + destruct (String.compare a b); congruence.
    + destruct (String.compare b c); congruence.
  - intros _. destruct (Ascii.compare y z) eqn:Hyz; try congruence.
    + apply Ascii.compare_eq_iff in Hyz. subst z. now rewrite Hxy.
    + now rewrite (ascii_compare_lt_trans x y z Hxy Hyz).
Qed.

Lemma insert_by_Permutation {A : Type} (key : A -> string) (x : A) (l : list A) :
  Permutation (insert_by key x l) (x :: l).
Proof.
  induction l as [| y l IH]; simpl.
  - apply Permutation_refl.
  - destruct (String.leb (key x) (key y)).
    + apply Permutation_refl.
    + apply perm_trans with (y :: x :: l); [now apply perm_skip | apply perm_swap].
Qed.

Lemma sort_by_Permutation {A : Type} (key : A -> string) (l : list A) :
  Permutation (sort_by key l) l.
Proof.
  induction l as [| x l IH]; simpl.
  - apply perm_nil.
  - apply perm_trans with (x :: sort_by key l);
      [apply insert_by_Permutation | now apply perm_skip].
Qed.

Lemma insert_by_sorted (x : string) (l : list string) :
  StronglySorted string_le l ->
  StronglySorted string_le (insert_by (fun s => s) x l).
Proof.
  induction l as [| y l IH]; simpl; intros Hsorted.
  - constructor; constructor.
  - inversion Hsorted as [| ? ? Hl Hy]; subst.
    destruct (String.leb x y) eqn:Hxy.
    + constructor; [exact Hsorted |].
      constructor; [exact Hxy |].
      apply Forall_impl with (P := string_le y); [| exact Hy].
      intros z Hyz. now apply string_le_trans with y.
    + constructor; [now apply IH |].
      apply Permutation_Forall with (x :: l);
        [apply Permutation_sym, insert_by_Permutation |].
      constructor; [| exact Hy].
      destruct (String.leb_total x y) as [H | H]; [congruence | exact H].
Qed.

Lemma sort_by_sorted (l : list string) :
  StronglySorted string_le (sort_by (fun s => s) l).
Proof.
  induction l as [| x l IH]; simpl.
  - constructor.
  - now apply insert_by_sorted.
Qed.



(** ** Determinism *)

Section Determinism.

Context {rt : Runtime}.
Variables mutagen_File mutagen_File' : decoder.



End Determinism.



(** * Further properties *)
(** ** File names *)

Lemma substring_split (n : nat) (p : string) :
  substring 0 n p ++ substring n (String.length p - n) p = p.
Proof.
  revert n. induction p as [| a p IH]; intros [| n]; simpl; try reflexivity.
  - f_equal. clear IH. induction p as [| b p IH]; simpl; [reflexivity | now f_equal].
  - f_equal. apply IH.
Qed.

Lemma skip_leading_dots_split (fuel : nat) (p : string) (i d : Z) (r : string * string) :
  OsPath.skip_leading_dots fuel p i d = Some r ->
  r = (Str.slice_to p d, Str.slice_from p d).
Proof.
  revert i. induction fuel as [| fuel IH]; intros i; simpl; [discriminate |].
  destruct (i <? d); [| discriminate].
  destruct (negb (String.eqb (Str.char_at p i) ".")).
  - intros H. now injection H as <-.
  - apply IH.
Qed.

Lemma splitext_cases (p : string) :
  OsPath.splitext p = (p, "") \/
  exists d, OsPath.splitext p = (Str.slice_to p d, Str.slice_from p d).
Proof.
  unfold OsPath.splitext.
  destruct (Str.rfind "." p >? Str.rfind "/" p); [| now left].
  destruct (OsPath.skip_leading_dots _ p _ _) as [r |] eqn:Hskip; [| now left].
  right. exists (Str.rfind "." p). now apply skip_leading_dots_split in Hskip.
Qed.

Lemma string_app_empty (s : string) : s ++ "" = s.
Proof. induction s as [| a s IH]; simpl; [reflexivity | now f_equal]. Qed.

Lemma splitext_concat (p : string) :
  fst (OsPath.splitext p) ++ snd (OsPath.splitext p) = p.
Proof.
  destruct (splitext_cases p) as [-> | [d ->]]; simpl.
  - apply string_app_empty.
  - apply substring_split.
Qed.


Lemma rfind_from_cases (c : ascii) (p : string) :
  forall i last, last < i ->
    (Str.rfind_from c p i last = last /\ absent c p) \/
    i <= Str.rfind_from c p i last.
Proof.
  induction p as [| a p IH]; intros i last Hlt; simpl.
  - left. split; [reflexivity | intros i' last'; reflexivity].
  - destruct (Ascii.eqb a c) eqn:Hac.
    + right. destruct (IH (i + 1) i) as [[H _] | H]; lia.
    + destruct (IH (i + 1) last) as [[H Habs] | H]; [lia | | right; lia].
      left. split; [exact H |].
      intros i' last'. simpl. rewrite Hac. apply Habs.
Qed.

Lemma rfind_absent (c : ascii) (s : string) :
  Str.rfind c s = -1 <-> absent c s.
Proof.
  split.
  - intros H. destruct (rfind_from_cases c s 0 (-1)) as [[_ Habs] | Hge]; [lia | exact Habs |].
    unfold Str.rfind in H. lia.
  - intros Habs. apply Habs.
Qed.

Lemma rfind_lower_bound (c : ascii) (s : string) : -1 <= Str.rfind c s.
Proof.
  unfold Str.rfind.
  destruct (rfind_from_cases c s 0 (-1)) as [[H _] | H]; lia.
Qed.

Lemma substring_whole (s : string) : substring 0 (String.length s) s = s.
Proof. induction s as [| a s IH]; simpl; [reflexivity | now f_equal]. Qed.

(** The suffix of [p] that starts at its last [c]. *)
Lemma rfind_from_suffix (c : ascii) (p : string) :
  forall i last, last < i -> i <= Str.rfind_from c p i last ->
    exists s,
      substring (Z.to_nat (Str.rfind_from c p i last - i))
        (String.length p - Z.to_nat (Str.rfind_from c p i last - i)) p = String c s /\
      absent c s.
Proof.
  induction p as [| a p IH]; intros i last Hlt; simpl.
  - lia.
  - destruct (Ascii.eqb a c) eqn:Hac.
    + apply Ascii.eqb_eq in Hac. subst a. intros _.
      destruct (rfind_from_cases c p (i + 1) i) as [[Hr Habs] | Hge]; [lia | |].
      * rewrite Hr. replace (i - i) with 0 by lia. simpl.
        exists p. now rewrite substring_whole.
      * destruct (IH (i + 1) i) as [s [Hs Habs]]; [lia | exact Hge |].
        exists s. split; [| exact Habs].
        replace (Z.to_nat (Str.rfind_from c p (i + 1) i - i))
          with (S (Z.to_nat (Str.rfind_from c p (i + 1) i - (i + 1)))) by lia.
        exact Hs.
    + intros Hge.
      destruct (rfind_from_cases c p (i + 1) last) as [[Hr _] | Hge']; [lia | lia |].
      destruct (IH (i + 1) last) as [s [Hs Habs]]; [lia | exact Hge' |].
      exists s. split; [| exact Habs].
      replace (Z.to_nat (Str.rfind_from c p (i + 1) last - i))
        with (S (Z.to_nat (Str.rfind_from c p (i + 1) last - (i + 1)))) by lia.
      exact Hs.
Qed.

(** No [c] at or after the position [n] of [p] when the last one is before. *)
Lemma rfind_from_before (c : ascii) (p : string) :
  forall i last (n : nat), last < i ->
    Str.rfind_from c p i last < i + Z.of_nat n ->
    absent c (substring n (String.length p - n) p).
Proof.
  induction p as [| a p IH]; intros i last n Hlt Hr.
  - destruct n; intros i' last'; reflexivity.
  - destruct n as [| n].
    + change (String.length (String a p) - 0)%nat with (String.length (String a p)).
      rewrite substring_whole.
      destruct (rfind_from_cases c (String a p) i last) as [[_ Habs] | Hge];
        [lia | exact Habs | lia].
    + simpl. simpl in Hr. destruct (Ascii.eqb a c).
      * apply (IH (i + 1) i n); lia.
      * apply (IH (i + 1) last n); lia.
Qed.

Lemma substring_tail (p : string) :
  forall (n : nat) (a : ascii) (s : string),
    substring n (String.length p - n) p = String a s ->
    substring (S n) (String.length p - S n) p = s.
Proof.
  induction p as [| b p IH]; intros n a s.
  - destruct n; discriminate.
  - destruct n as [| n].
    + change (String.length (String b p) - 0)%nat with (String.length (String b p)).
      rewrite substring_whole. intros H. injection H as _ <-.
      simpl. replace (String.length p - 0)%nat with (String.length p) by lia.
      apply substring_whole.
    + simpl. intros H. apply IH in H.
      destruct n; exact H.
Qed.

Lemma splitext_dot (p : string) :
  OsPath.splitext p = (p, "") \/
  (Str.rfind "/" p < Str.rfind "." p /\
   OsPath.splitext p =
     (Str.slice_to p (Str.rfind "." p), Str.slice_from p (Str.rfind "." p))).
Proof.
  unfold OsPath.splitext.
  destruct (Str.rfind "." p >? Str.rfind "/" p) eqn:Hgt; [| now left].
  destruct (OsPath.skip_leading_dots _ p _ _) as [r |] eqn:Hskip; [| now left].
  right. split; [lia |]. now apply skip_leading_dots_split in Hskip.
Qed.

(** X1: [os.path.splitext] cuts a path in two parts that give the path
    back when joined; the second part is empty, or it is a dot followed by
    characters among which there is neither a dot nor a separator. *)
Theorem splitext_parts (p : string) :
  fst (OsPath.splitext p) ++ snd (OsPath.splitext p) = p /\
  (snd (OsPath.splitext p) = "" \/
   exists s, snd (OsPath.splitext p) = String "." s /\
             Str.rfind "." s = -1 /\ Str.rfind "/" s = -1).
Proof.
  split; [apply splitext_concat |].
  destruct (splitext_dot p) as [-> | [Hsep ->]]; [now left |].
  right. simpl. unfold Str.slice_from.
  pose proof (rfind_lower_bound "/" p) as Hlow.
  destruct (rfind_from_suffix "." p 0 (-1)) as [s [Hs Habs]];
    [lia | unfold Str.rfind in *; lia |].
  fold (Str.rfind "." p) in Hs. rewrite Z.sub_0_r in Hs.
  exists s. split; [exact Hs |]. split; [now apply rfind_absent |].
  apply rfind_absent.
  rewrite <- (substring_tail p _ _ _ Hs).
  apply (rfind_from_before "/" p 0 (-1)); [lia |].
  fold (Str.rfind "/" p). lia.
Qed.

(** X2: a name with no dot in it has the format "unknown", and so has
    the name made of a dot and such a name when it has no separator either:
    a leading dot does not start an extension, so that ".mp3" is not an
    mp3 file. *)
Theorem format_without_extension (name : string) :
  Str.rfind "." name = -1 ->
  format_from_filename name = "unknown" /\
  (Str.rfind "/" name = -1 -> format_from_filename (String "." name) = "unknown").
Proof.
  intros Hdot. split.
  - unfold format_from_filename, file_ext, OsPath.splitext. rewrite Hdot.
    pose proof (rfind_lower_bound "/" name) as Hlow.
    destruct (-1 >? Str.rfind "/" name) eqn:Hgt; [lia |]. reflexivity.
  - intros Hsep. apply rfind_absent in Hdot. apply rfind_absent in Hsep.
    unfold format_from_filename, file_ext, OsPath.splitext, Str.rfind. simpl.
    rewrite (Hdot 1 0), (Hsep 1 (-1)). reflexivity.
Qed.

Lemma format_without_extension_witness :
  Str.rfind "." "mp3" = -1 /\
  format_from_filename "mp3" = "unknown" /\
  format_from_filename ".mp3" = "unknown".
Proof.
  split; [reflexivity |].
  destruct (format_without_extension "mp3" eq_refl) as [Hbare Hdot].
  split; [exact Hbare | exact (Hdot eq_refl)].
Defined.

(** *** Letter case *)

Lemma upper_char_keeps (a : ascii) :
  Ascii.eqb (Str.upper_char a) "." = Ascii.eqb a "." /\
  Ascii.eqb (Str.upper_char a) "/" = Ascii.eqb a "/" /\
  Str.lower_char (Str.upper_char a) = Str.lower_char a.
Proof.
  destruct a as [[] [] [] [] [] [] [] []]; repeat split; reflexivity.
Qed.

Lemma lower_char_keeps (a : ascii) :
  Ascii.eqb (Str.lower_char a) "." = Ascii.eqb a "." /\
  Ascii.eqb (Str.lower_char a) "/" = Ascii.eqb a "/" /\
  Str.lower_char (Str.lower_char a) = Str.lower_char a.
Proof.
  destruct a as [[] [] [] [] [] [] [] []]; repeat split; reflexivity.
Qed.

Section MapChars.

Variable f : ascii -> ascii.
Hypothesis f_dot : forall a, Ascii.eqb (f a) "." = Ascii.eqb a ".".
Hypothesis f_sep : forall a, Ascii.eqb (f a) "/" = Ascii.eqb a "/".
Hypothesis f_lower : forall a, Str.lower_char (f a) = Str.lower_char a.

Lemma map_chars_length (s : string) :
  String.length (Str.map_chars f s) = String.length s.
Proof. induction s as [| a s IH]; simpl; [reflexivity | now f_equal]. Qed.

Lemma map_chars_substring (s : string) :
  forall n m, substring n m (Str.map_chars f s) = Str.map_chars f (substring n m s).
Proof.
  induction s as [| a s IH]; intros [| n] [| m]; simpl; try reflexivity;
    try apply IH.
  now rewrite IH.
Qed.

Lemma map_chars_rfind_dot (s : string) :
  forall i last,
    Str.rfind_from "." (Str.map_chars f s) i last = Str.rfind_from "." s i last.
Proof.
  induction s as [| a s IH]; intros i last; simpl; [reflexivity |].
  now rewrite f_dot, IH.
Qed.

Lemma map_chars_rfind_sep (s : string) :
  forall i last,
    Str.rfind_from "/" (Str.map_chars f s) i last = Str.rfind_from "/" s i last.
Proof.
  induction s as [| a s IH]; intros i last; simpl; [reflexivity |].
  now rewrite f_sep, IH.
Qed.

Lemma map_chars_is_dot (s : string) :
  String.eqb (Str.map_chars f s) "." = String.eqb s ".".
Proof.
  destruct s as [| a [| b s]]; simpl; try reflexivity.
  - now rewrite f_dot.
  - rewrite f_dot. reflexivity.
Qed.

Lemma map_chars_skip_leading_dots (fuel : nat) (p : string) :
  forall i d,
    OsPath.skip_leading_dots fuel (Str.map_chars f p) i d =
    match OsPath.skip_leading_dots fuel p i d with
    | Some (root, ext) => Some (Str.map_chars f root, Str.map_chars f ext)
    | None => None
    end.
Proof.
  induction fuel as [| fuel IH]; intros i d; simpl; [reflexivity |].
  destruct (i <? d); [| reflexivity].
  unfold Str.char_at. rewrite map_chars_substring, map_chars_is_dot.
  destruct (negb (String.eqb (substring (Z.to_nat i) 1 p) ".")).
  - unfold Str.slice_to, Str.slice_from.
    now rewrite !map_chars_substring, map_chars_length.
  - apply IH.
Qed.

Lemma map_chars_splitext (p : string) :
  OsPath.splitext (Str.map_chars f p) =
  (Str.map_chars f (fst (OsPath.splitext p)), Str.map_chars f (snd (OsPath.splitext p))).
Proof.
  unfold OsPath.splitext, Str.rfind.
  rewrite map_chars_rfind_dot, map_chars_rfind_sep.
  destruct (Str.rfind_from "." p 0 (-1) >? Str.rfind_from "/" p 0 (-1)); [| reflexivity].
  rewrite map_chars_skip_leading_dots.
  destruct (OsPath.skip_leading_dots _ p _ _) as [[root ext] |]; reflexivity.
Qed.

Lemma map_chars_lower (s : string) : Str.lower (Str.map_chars f s) = Str.lower s.
Proof.
  unfold Str.lower. induction s as [| a s IH]; simpl; [reflexivity |].
  now rewrite f_lower, IH.
Qed.

Lemma map_chars_file_ext (p : string) : file_ext (Str.map_chars f p) = file_ext p.
Proof.
  unfold file_ext. rewrite map_chars_splitext. simpl. now rewrite map_chars_lower.
Qed.

End MapChars.

(** X3: the format of a file name does not depend on the case of its
    letters: the name in upper case and the name in lower case have the
    format of the name. *)
Theorem format_ignores_case (name : string) :
  format_from_filename (Str.upper name) = format_from_filename name /\
  format_from_filename (Str.lower name) = format_from_filename name.
Proof.
  unfold format_from_filename, Str.upper, Str.lower. split.
  - rewrite (map_chars_file_ext Str.upper_char); try reflexivity;
      intros a; apply upper_char_keeps.
  - rewrite (map_chars_file_ext Str.lower_char); try reflexivity;
      intros a; apply lower_char_keeps.
Qed.


Lemma dict_get_None_keys {V : Type} (d : dict V) (key : string) :
  ~ In key (dict_keys d) -> dict_get d key = None.
Proof.
  induction d as [| [k v] d IH]; simpl; intros Hnot; [reflexivity |].
  destruct (String.eqb k key) eqn:Hk.
  - apply String.eqb_eq in Hk. tauto.
  - apply IH. tauto.
Qed.

(** X4: the chain of tests of [format_from_filename] is the lookup of
    the extension in a table of 38 aliases, with "unknown" for an extension
    that is not in it: no test of the chain hides an alias of a later one. *)
Theorem format_of_ext_table (ext : string) :
  format_of_ext ext =
  match dict_get format_table ext with
  | Some format => format
  | None => "unknown"
  end.
Proof.
  destruct (in_dec string_dec ext known_extensions) as [Hin | Hout].
  - simpl in Hin.
    repeat (destruct Hin as [<- | Hin]; [reflexivity |]). destruct Hin.
  - rewrite (format_of_ext_unknown ext Hout).
    now rewrite (dict_get_None_keys format_table ext Hout).
Qed.

(** ** Value Normalizer: what each kind comes from *)

Section NormalizerKinds.

Context {rt : Runtime}.

(** The outcome of the normalizer, rule by rule. *)
Lemma normalize_tag_value_rules (value : pyval) :
  (hasattr_imageformat value = true /\
   normalize_tag_value value = (raw <- py_bytes value ;; Ok (Some (binary_of raw)))) \/
  (hasattr_imageformat value = false /\
   exists texts, text_conversion value = Some (Ok texts) /\
                 normalize_tag_value value = Ok (Some (CText texts))) \/
  (hasattr_imageformat value = false /\ text_rule value = None /\
   normalize_tag_value value = later_rules value).
Proof.
  unfold normalize_tag_value, text_rule.
  destruct (hasattr_imageformat value); [left; now split |].
  right. destruct (text_conversion value) as [[texts | e] |].
  - left. split; [reflexivity |]. now exists texts.
  - right. now repeat split.
  - right. now repeat split.
Qed.

Lemma str_fallback_cases (value : pyval) (r : option canonical) :
  str_fallback value = Ok r ->
  exists text, py_str value = Ok text /\
    ((text = "" /\ r = None) \/ (text <> "" /\ r = Some (CText [text]))).
Proof.
  unfold str_fallback, bind. destruct (py_str value) as [text | e]; [| discriminate].
  destruct (String.eqb text "") eqn:Hempty; intros H; injection H as <-; exists text;
    split; try reflexivity.
  - left. split; [now apply String.eqb_eq | reflexivity].
  - right. split; [now apply String.eqb_neq | reflexivity].
Qed.

Lemma sequence_rule_cases (value : pyval) (r : result (option canonical)) :
  sequence_rule value = Some r ->
  exists xs, (shape_of value = SList xs \/ shape_of value = STuple xs) /\
    ((xs <> [] /\ forallb is_byteslike xs = true /\
      r = (blobs <- mapM py_bytes xs ;; Ok (Some (binary_of (List.concat blobs))))) \/
     (forallb is_primitive xs = true /\
      r = (converted <- mapM convert_element xs ;; Ok (Some (CText converted))))).
Proof.
  unfold sequence_rule.
  assert (Hgen : forall xs,
    (if (negb (Nat.eqb (List.length xs) 0) && forallb is_byteslike xs)%bool
     then Some (blobs <- mapM py_bytes xs ;; Ok (Some (binary_of (List.concat blobs))))
     else if forallb is_primitive xs
          then Some (converted <- mapM convert_element xs ;; Ok (Some (CText converted)))
          else None) = Some r ->
    (xs <> [] /\ forallb is_byteslike xs = true /\
      r = (blobs <- mapM py_bytes xs ;; Ok (Some (binary_of (List.concat blobs))))) \/
     (forallb is_primitive xs = true /\
      r = (converted <- mapM convert_element xs ;; Ok (Some (CText converted))))).
  { intros xs.
    destruct (negb (Nat.eqb (List.length xs) 0)) eqn:Hlen; simpl.
    - destruct (forallb is_byteslike xs) eqn:Hbytes.
      + intros H. injection H as <-. left. repeat split.
        intros ->. discriminate Hlen.
      + destruct (forallb is_primitive xs); [| discriminate].
        intros H. injection H as <-. right. now split.
    - destruct (forallb is_primitive xs); [| discriminate].
      intros H. injection H as <-. right. now split. }
  destruct (shape_of value); try discriminate; intros H; exists xs;
    (split; [tauto | now apply Hgen]).
Qed.

End NormalizerKinds.

(** X5: the normalizer returns a [bool] only for a boolean, and it is
    that boolean; an [int] only for an integer that is not a boolean, and it
    is that integer; a [double] only for a float, which is finite and is
    that float. *)
Theorem normalize_scalar_kinds `{rt : Runtime} (value : pyval) :
  (forall b, normalize_tag_value value = Ok (Some (CBool b)) ->
     shape_of value = SBool b) /\
  (forall n, normalize_tag_value value = Ok (Some (CInt n)) ->
     shape_of value = SInt n) /\
  (forall x, normalize_tag_value value = Ok (Some (CDouble x)) ->
     shape_of value = SFloat x /\ Float.isfinite x = true).
Proof.
  assert (Hlater : forall c,
    (forall texts, c <> CText texts) -> (forall size digest, c <> CBinary size digest) ->
    normalize_tag_value value = Ok (Some c) ->
    scalar_rules value = Ok (Some c) /\ sequence_rule value = None).
  { intros c Htext Hbin Hnorm.
    destruct (normalize_tag_value_rules value)
      as [[_ H] | [[_ [texts [_ H]]] | [_ [_ H]]]]; rewrite H in Hnorm.
    - unfold bind, binary_of in Hnorm. destruct (py_bytes value); [| discriminate].
      injection Hnorm as <-. exfalso; eapply Hbin; reflexivity.
    - injection Hnorm as <-. exfalso; eapply Htext; reflexivity.
    - unfold later_rules in Hnorm.
      destruct (sequence_rule value) as [r |] eqn:Hseq.
      + exfalso. apply sequence_rule_cases in Hseq.
        destruct Hseq as [xs [Hshape Hseq]].
        assert (Hr : r = Ok (Some c)).
        { destruct Hshape as [Hshape | Hshape]; rewrite Hshape in Hnorm; exact Hnorm. }
        subst r.
        destruct Hseq as [[_ [_ Hr]] | [_ Hr]]; unfold bind, binary_of in Hr.
        * destruct (mapM py_bytes xs); [| discriminate].
          injection Hr as ->. exfalso; eapply Hbin; reflexivity.
        * destruct (mapM convert_element xs); [| discriminate].
          injection Hr as ->. exfalso; eapply Htext; reflexivity.
      + split; [| reflexivity].
        destruct (shape_of value) eqn:Hshape; try exact Hnorm.
        unfold binary_of in Hnorm. injection Hnorm as <-. exfalso; eapply Hbin; reflexivity. }
  assert (Hfallback : forall c,
    (forall texts, c <> CText texts) -> str_fallback value <> Ok (Some c)).
  { intros c Htext H. apply str_fallback_cases in H.
    destruct H as [text [_ [[_ H] | [_ H]]]]; [discriminate |].
    injection H as ->. eapply Htext; reflexivity. }
  repeat split.
  - intros b Hnorm. destruct (Hlater (CBool b)) as [Hs _]; try discriminate; [exact Hnorm |].
    unfold scalar_rules in Hs.
    destruct (shape_of value); try (now apply Hfallback in Hs; try discriminate).
    + congruence.
    + discriminate.
    + destruct (Float.isfinite x); [discriminate |].
      now apply Hfallback in Hs; try discriminate.
  - intros n Hnorm. destruct (Hlater (CInt n)) as [Hs _]; try discriminate; [exact Hnorm |].
    unfold scalar_rules in Hs.
    destruct (shape_of value); try (now apply Hfallback in Hs; try discriminate).
    + discriminate.
    + congruence.
    + destruct (Float.isfinite x); [discriminate |].
      now apply Hfallback in Hs; try discriminate.
  - destruct (Hlater (CDouble x)) as [Hs _]; try discriminate; [exact H |].
    unfold scalar_rules in Hs.
    destruct (shape_of value); try (now apply Hfallback in Hs; try discriminate);
      try discriminate.
    destruct (Float.isfinite x0); [congruence |].
    now apply Hfallback in Hs; try discriminate.
  - now apply normalize_double_finite with value.
Qed.

(** X6: the size and the digest of a [binary] the normalizer returns
    are the length and the digest of the same bytes: those [bytes(value)]
    gives for a value with an [imageformat] attribute, the value itself
    when it is a byte string, or the concatenation of the elements of a
    non-empty list or tuple of byte strings, byte arrays and memory views. *)
Theorem normalize_binary_content `{rt : Runtime} (value : pyval) (size : Z)
  (digest : string) :
  normalize_tag_value value = Ok (Some (CBinary size digest)) ->
  exists raw,
    size = Z.of_nat (List.length raw) /\ digest = sha256_hexdigest raw /\
    ((hasattr_imageformat value = true /\ py_bytes value = Ok raw) \/
     (hasattr_imageformat value = false /\ shape_of value = SBytes raw) \/
     (hasattr_imageformat value = false /\
      exists xs blobs,
        (shape_of value = SList xs \/ shape_of value = STuple xs) /\
        xs <> [] /\ forallb is_byteslike xs = true /\
        mapM py_bytes xs = Ok blobs /\ raw = List.concat blobs)).
Proof.
  intros Hnorm.
  destruct (normalize_tag_value_rules value)
    as [[Himg H] | [[_ [texts [_ H]]] | [Himg [_ H]]]]; rewrite H in Hnorm.
  - unfold bind in Hnorm. destruct (py_bytes value) as [raw | e]; [| discriminate].
    injection Hnorm as <- <-. exists raw. repeat split. left. now split.
  - discriminate.
  - unfold later_rules in Hnorm.
    destruct (shape_of value) eqn:Hshape;
      try (destruct (sequence_rule value) as [r |] eqn:Hseq;
           [ apply sequence_rule_cases in Hseq;
             destruct Hseq as [ys [[Hs | Hs] _]]; rewrite Hshape in Hs; discriminate
           | unfold scalar_rules, str_fallback, bind in Hnorm; rewrite Hshape in Hnorm;
             try discriminate;
             try (destruct (py_str value) as [text | e]; [| discriminate];
                  destruct (String.eqb text ""); discriminate) ]).
    + destruct (Float.isfinite x); [discriminate |].
      destruct (py_str value) as [text | e]; [| discriminate].
      destruct (String.eqb text ""); discriminate.
    + injection Hnorm as <- <-. exists raw. repeat split. right. left. now split.
    + destruct (sequence_rule value) as [r |] eqn:Hseq.
      * apply sequence_rule_cases in Hseq.
        destruct Hseq as [ys [Hys [[Hne [Hall Hr]] | [_ Hr]]]]; subst r; unfold bind in Hnorm.
        -- destruct (mapM py_bytes ys) as [blobs | e] eqn:Hblobs; [| discriminate].
           injection Hnorm as <- <-. exists (List.concat blobs). repeat split.
           right. right. split; [exact Himg |]. exists ys, blobs. rewrite <- Hshape.
           repeat split; assumption.
        -- destruct (mapM convert_element ys); discriminate.
      * unfold scalar_rules, str_fallback, bind in Hnorm. rewrite Hshape in Hnorm.
        destruct (py_str value) as [text | e]; [| discriminate].
        destruct (String.eqb text ""); discriminate.
    + destruct (sequence_rule value) as [r |] eqn:Hseq.
      * apply sequence_rule_cases in Hseq.
        destruct Hseq as [ys [Hys [[Hne [Hall Hr]] | [_ Hr]]]]; subst r; unfold bind in Hnorm.
        -- destruct (mapM py_bytes ys) as [blobs | e] eqn:Hblobs; [| discriminate].
           injection Hnorm as <- <-. exists (List.concat blobs). repeat split.
           right. right. split; [exact Himg |]. exists ys, blobs. rewrite <- Hshape.
           repeat split; assumption.
        -- destruct (mapM convert_element ys); discriminate.
      * unfold scalar_rules, str_fallback, bind in Hnorm. rewrite Hshape in Hnorm.
        destruct (py_str value) as [text | e]; [| discriminate].
        destruct (String.eqb text ""); discriminate.
Qed.

Lemma normalize_binary_content_witness :
  normalize_tag_value (rt := Examples.runtime) (MoreExamples.mp4_cover [x01; x02]) =
    Ok (Some (CBinary 2 (sha256_hexdigest (Runtime := Examples.runtime) [x01; x02]))) /\
  exists raw,
    2 = Z.of_nat (List.length raw) /\
    py_bytes (MoreExamples.mp4_cover [x01; x02]) = Ok raw.
Proof.
  split; [reflexivity |].
  destruct (normalize_binary_content (rt := Examples.runtime)
              (MoreExamples.mp4_cover [x01; x02]) 2 _ eq_refl)
    as [raw [Hsize [_ [[_ Hbytes] | [[Himg _] | [Himg _]]]]]];
    [| discriminate Himg | discriminate Himg].
  exists raw. split; [exact Hsize | exact Hbytes].
Defined.

Lemma mapM_Forall2 {A B : Type} (f : A -> result B) (xs : list A) :
  forall ys, mapM f xs = Ok ys <-> Forall2 (fun x y => f x = Ok y) xs ys.
Proof.
  induction xs as [| x xs IH]; intros ys; simpl.
  - split.
    + intros H. injection H as <-. constructor.
    + intros H. now inversion H.
  - unfold bind. split.
    + destruct (f x) as [y | e] eqn:Hx; [| discriminate].
      destruct (mapM f xs) as [ys' | e] eqn:Hxs; [| discriminate].
      intros H. injection H as <-. constructor; [exact Hx | now apply IH].
    + intros H. inversion H as [| ? y ? ys' Hx Hxs]; subst.
      rewrite Hx. apply IH in Hxs. now rewrite Hxs.
Qed.

(** X7: the normalizer yields absence only through its last rule, for a
    value whose string form is empty: the value has no [imageformat]
    attribute, its text rule and its collection rule return nothing, and
    [str(value)] is the empty string. *)
Theorem normalize_absent `{rt : Runtime} (value : pyval) :
  normalize_tag_value value = Ok None ->
  hasattr_imageformat value = false /\ text_rule value = None /\
  sequence_rule value = None /\ py_str value = Ok "".
Proof.
  intros Hnorm.
  destruct (normalize_tag_value_rules value)
    as [[_ H] | [[_ [texts [_ H]]] | [Himg [Htext H]]]]; rewrite H in Hnorm.
  - unfold bind in Hnorm. destruct (py_bytes value); discriminate.
  - discriminate.
  - split; [exact Himg |]. split; [exact Htext |].
    unfold later_rules in Hnorm.
    destruct (sequence_rule value) as [r |] eqn:Hseq.
    + exfalso. apply sequence_rule_cases in Hseq.
      destruct Hseq as [xs [Hshape Hr]].
      assert (r = Ok None) as ->.
      { destruct Hshape as [Hs | Hs]; rewrite Hs in Hnorm; exact Hnorm. }
      destruct Hr as [[_ [_ Hr]] | [_ Hr]]; unfold bind in Hr.
      * destruct (mapM py_bytes xs); discriminate.
      * destruct (mapM convert_element xs); discriminate.
    + split; [reflexivity |].
      assert (Hfb : str_fallback value = Ok None).
      { unfold scalar_rules in Hnorm.
        destruct (shape_of value); try exact Hnorm; try discriminate.
        destruct (Float.isfinite x); [discriminate | exact Hnorm]. }
      apply str_fallback_cases in Hfb.
      destruct Hfb as [text [Hstr [[-> _] | [_ Hbad]]]]; [exact Hstr | discriminate].
Qed.

Lemma normalize_absent_witness :
  normalize_tag_value (rt := Examples.runtime)
    (plain_str (rt := Examples.runtime) EmptyString) = Ok None /\
  py_str (plain_str (rt := Examples.runtime) EmptyString) = Ok EmptyString.
Proof.
  split; [reflexivity |].
  apply (normalize_absent (rt := Examples.runtime)
           (plain_str (rt := Examples.runtime) EmptyString) eq_refl).
Defined.

(** X8: a byte array or a memory view that reaches the rules after the
    text rule is not normalized as [binary] but through its string form,
    although the same value as the one element of a list is: only [bytes]
    is tested on the value itself. *)
Theorem normalize_bytearray `{rt : Runtime} (value : pyval) (raw : bytes) :
  shape_of value = SByteArray raw \/ shape_of value = SMemoryView raw ->
  hasattr_imageformat value = false ->
  text_rule value = None ->
  normalize_tag_value value = str_fallback value /\
  (py_bytes value = Ok raw ->
   forall printed,
     normalize_tag_value (plain_list [value] printed) = Ok (Some (binary_of raw))).
Proof.
  intros Hshape Himg Htext. split.
  - rewrite (normalize_later_rules value Himg Htext).
    unfold later_rules, sequence_rule, scalar_rules.
    destruct Hshape as [-> | ->]; reflexivity.
  - intros Hbytes printed.
    unfold normalize_tag_value, later_rules, sequence_rule. simpl.
    unfold is_byteslike. destruct Hshape as [-> | ->]; simpl;
      rewrite Hbytes; simpl; now rewrite app_nil_r.
Qed.

Lemma normalize_bytearray_witness :
  shape_of (MoreExamples.bytearray_value [x61]) = SByteArray [x61] /\
  normalize_tag_value (rt := Examples.runtime) (MoreExamples.bytearray_value [x61]) =
    Ok (Some (CText ["bytearray(b'a')"])) /\
  normalize_tag_value (rt := Examples.runtime)
    (plain_list [MoreExamples.bytearray_value [x61]] "[bytearray(b'a')]") =
    Ok (Some (binary_of (rt := Examples.runtime) [x61])).
Proof.
  split; [reflexivity |].
  destruct (normalize_bytearray (rt := Examples.runtime)
              (MoreExamples.bytearray_value [x61]) [x61]
              (or_introl eq_refl) eq_refl eq_refl) as [Hbare Hlist].
  split; [rewrite Hbare; reflexivity | exact (Hlist eq_refl _)].
Defined.

Lemma plain_bytes_list `{rt : Runtime} (blobs : list bytes) :
  forallb is_byteslike (map plain_bytes blobs) = true /\
  mapM py_bytes (map plain_bytes blobs) = Ok blobs.
Proof.
  induction blobs as [| raw blobs [IHall IHmap]]; simpl; [now split |].
  split; [exact IHall |]. now rewrite IHmap.
Qed.

(** X9: a non-empty list or tuple of byte strings is normalized as
    the one byte string that their concatenation is: where the elements are
    cut does not show in the result. *)
Theorem normalize_bytes_list_concat `{rt : Runtime} (blobs : list bytes)
  (printed : string) :
  blobs <> [] ->
  normalize_tag_value (plain_list (map plain_bytes blobs) printed) =
    Ok (Some (binary_of (List.concat blobs))) /\
  normalize_tag_value (plain_tuple (map plain_bytes blobs) printed) =
    Ok (Some (binary_of (List.concat blobs))) /\
  normalize_tag_value (plain_list (map plain_bytes blobs) printed) =
    normalize_tag_value (plain_bytes (List.concat blobs)).
Proof.
  intros Hne.
  destruct (plain_bytes_list blobs) as [Hall Hmap].
  assert (Hlen : negb (Nat.eqb (List.length (map plain_bytes blobs)) 0) = true).
  { destruct blobs; [contradiction | reflexivity]. }
  assert (Hlist : forall value,
            hasattr_imageformat value = false -> text_rule value = None ->
            shape_of value = SList (map plain_bytes blobs) \/
            shape_of value = STuple (map plain_bytes blobs) ->
            normalize_tag_value value = Ok (Some (binary_of (List.concat blobs)))).
  { intros value Himg Htext Hshape.
    rewrite (normalize_later_rules value Himg Htext).
    apply later_rules_sequence. unfold sequence_rule.
    destruct Hshape as [-> | ->]; rewrite Hlen, Hall; simpl; now rewrite Hmap. }
  split; [apply Hlist; auto |]. split; [apply Hlist; auto |].
  rewrite Hlist; auto.
Qed.

Lemma normalize_bytes_list_concat_witness :
  normalize_tag_value (rt := Examples.runtime)
    (plain_list (map (plain_bytes (rt := Examples.runtime)) [[x61; x62]; [x63]]) "[b'ab', b'c']") =
  normalize_tag_value (rt := Examples.runtime)
    (plain_list (map (plain_bytes (rt := Examples.runtime)) [[x61]; [x62; x63]]) "[b'a', b'bc']").
Proof.
  destruct (normalize_bytes_list_concat (rt := Examples.runtime)
              [[x61; x62]; [x63]] "[b'ab', b'c']") as [Hleft _]; [discriminate |].
  destruct (normalize_bytes_list_concat (rt := Examples.runtime)
              [[x61]; [x62; x63]] "[b'a', b'bc']") as [Hright _]; [discriminate |].
  rewrite Hleft, Hright. reflexivity.
Defined.

Lemma forallb_false_In {A : Type} (f : A -> bool) (xs : list A) (x : A) :
  In x xs -> f x = false -> forallb f xs = false.
Proof.
  intros Hin Hx. destruct (forallb f xs) eqn:Hall; [| reflexivity].
  rewrite forallb_forall in Hall. rewrite (Hall x Hin) in Hx. discriminate.
Qed.

(** X10: a list or tuple with an element that is not a primitive and an
    element that is not byte-like (they may be the same one) is normalized
    through its printed form: a one-string [text], or absence when it
    prints as the empty string. *)
Theorem normalize_mixed_sequence `{rt : Runtime} (xs : list pyval)
  (x y : pyval) (printed : string) :
  In x xs -> is_primitive x = false ->
  In y xs -> is_byteslike y = false ->
  normalize_tag_value (plain_list xs printed) =
    Ok (if String.eqb printed "" then None else Some (CText [printed])) /\
  normalize_tag_value (plain_tuple xs printed) =
    Ok (if String.eqb printed "" then None else Some (CText [printed])).
Proof.
  intros Hx Hprim Hy Hbytes.
  pose proof (forallb_false_In is_primitive xs x Hx Hprim) as Hp.
  pose proof (forallb_false_In is_byteslike xs y Hy Hbytes) as Hb.
  unfold normalize_tag_value, later_rules, sequence_rule, scalar_rules, str_fallback.
  simpl. rewrite Hp, Hb, andb_false_r. simpl.
  split; now destruct (String.eqb printed "").
Qed.

Lemma normalize_mixed_sequence_witness :
  is_primitive (MoreExamples.bytearray_value [x61]) = false /\
  is_byteslike (plain_str (rt := Examples.runtime) "b") = false /\
  normalize_tag_value (rt := Examples.runtime)
    (plain_list [MoreExamples.bytearray_value [x61]; plain_str (rt := Examples.runtime) "b"]
       "[bytearray(b'a'), 'b']") =
    Ok (Some (CText ["[bytearray(b'a'), 'b']"])).
Proof.
  split; [reflexivity |]. split; [reflexivity |].
  destruct (normalize_mixed_sequence (rt := Examples.runtime)
              [MoreExamples.bytearray_value [x61]; plain_str (rt := Examples.runtime) "b"]
              (MoreExamples.bytearray_value [x61]) (plain_str (rt := Examples.runtime) "b")
              "[bytearray(b'a'), 'b']"
              (or_introl eq_refl) eq_refl (or_intror (or_introl eq_refl)) eq_refl)
    as [Hlist _].
  exact Hlist.
Defined.

(** X11: for a list or tuple of primitives that reaches the
    collection rule, a value the normalizer returns is either the [binary]
    of the all-bytes branch, or a [text] with one string for each element,
    in order, the string being the decoded bytes of a byte string and
    [str] of any other element. *)
Theorem normalize_primitive_sequence `{rt : Runtime} (value : pyval)
  (xs : list pyval) (c : canonical) :
  shape_of value = SList xs \/ shape_of value = STuple xs ->
  hasattr_imageformat value = false ->
  text_rule value = None ->
  forallb is_primitive xs = true ->
  normalize_tag_value value = Ok (Some c) ->
  (xs <> [] /\ forallb is_byteslike xs = true /\
   exists blobs, mapM py_bytes xs = Ok blobs /\ c = binary_of (List.concat blobs)) \/
  (exists texts, c = CText texts /\
     Forall2 (fun x text => convert_element x = Ok text) xs texts).
Proof.
  intros Hshape Himg Htext Hprim Hnorm.
  rewrite (normalize_later_rules value Himg Htext) in Hnorm.
  assert (Hseq : exists r, sequence_rule value = Some r).
  { unfold sequence_rule. destruct Hshape as [-> | ->]; rewrite Hprim;
      destruct (negb (Nat.eqb (List.length xs) 0) && forallb is_byteslike xs)%bool;
      eexists; reflexivity. }
  destruct Hseq as [r Hseq].
  rewrite (later_rules_sequence value r Hseq) in Hnorm. subst r.
  apply sequence_rule_cases in Hseq.
  destruct Hseq as [ys [Hys Hr]].
  assert (ys = xs) as ->.
  { destruct Hshape as [H | H]; rewrite H in Hys; destruct Hys; congruence. }
  destruct Hr as [[Hne [Hall Hr]] | [_ Hr]]; unfold bind in Hr.
  - left. split; [exact Hne |]. split; [exact Hall |].
    destruct (mapM py_bytes xs) as [blobs | e] eqn:Hblobs; [| discriminate].
    injection Hr as ->. now exists blobs.
  - right. destruct (mapM convert_element xs) as [texts | e] eqn:Hmap; [| discriminate].
    injection Hr as ->. exists texts. split; [reflexivity |].
    now apply mapM_Forall2.
Qed.

Lemma normalize_primitive_sequence_witness :
  normalize_tag_value (rt := Examples.runtime)
    (plain_list [plain_str (rt := Examples.runtime) "a"; plain_int 5;
                 plain_bytes (rt := Examples.runtime) [x62]] "['a', 5, b'b']") =
    Ok (Some (CText ["a"; "5"; "b"])) /\
  exists texts,
    CText ["a"; "5"; "b"] = CText texts /\
    Forall2 (fun x text => convert_element (rt := Examples.runtime) x = Ok text)
      [plain_str (rt := Examples.runtime) "a"; plain_int 5;
       plain_bytes (rt := Examples.runtime) [x62]] texts.
Proof.
  split; [reflexivity |].
  destruct (normalize_primitive_sequence (rt := Examples.runtime)
              (plain_list [plain_str (rt := Examples.runtime) "a"; plain_int 5;
                           plain_bytes (rt := Examples.runtime) [x62]] "['a', 5, b'b']")
              [plain_str (rt := Examples.runtime) "a"; plain_int 5;
               plain_bytes (rt := Examples.runtime) [x62]]
              (CText ["a"; "5"; "b"])
              (or_introl eq_refl) eq_refl eq_refl eq_refl eq_refl)
    as [[_ [Hall _]] | Htexts]; [discriminate Hall | exact Htexts].
Defined.

(** ** Tag Collector: where the tags come from *)

Section TagOrigins.

Context {rt : Runtime}.

Lemma kept_entry_inv (entry : pyval * pyval) (key : string) (c : canonical) :
  kept_entry entry = Some (key, c) ->
  py_str (fst entry) = Ok key /\ key_wanted key = true /\
  normalize_tag_value (snd entry) = Ok (Some c).
Proof.
  unfold kept_entry. destruct (py_str (fst entry)) as [key_str | e]; [| discriminate].
  destruct (key_wanted key_str) eqn:Hwanted; [| discriminate].
  destruct (normalize_tag_value (snd entry)) as [[c' |] | e]; try discriminate.
  intros H. injection H as <- <-. now repeat split.
Qed.

Lemma last_kept_In (items : list (pyval * pyval)) (key : string) (c : canonical) :
  last_kept items key = Some c ->
  exists entry, In entry items /\ kept_entry entry = Some (key, c).
Proof.
  induction items as [| entry items IH]; simpl; [discriminate |].
  destruct (last_kept items key) as [c' |].
  - intros H. injection H as ->. destruct (IH eq_refl) as [entry' [Hin Hkept]].
    exists entry'. split; [now right | exact Hkept].
  - destruct (kept_entry entry) as [[k c'] |] eqn:Hkept; [| discriminate].
    destruct (String.eqb k key) eqn:Hk; [| discriminate].
    apply String.eqb_eq in Hk. subst k. intros H. injection H as ->.
    exists entry. split; [now left | exact Hkept].
Qed.



(** An entry of the mapping the loop returns is a kept entry of the items. *)
Lemma collect_tags_loop_origin (items : list (pyval * pyval))
  (tags : dict canonical) (key : string) (c : canonical) :
  collect_tags_loop items [] = Ok tags ->
  In (key, c) tags ->
  exists entry, In entry items /\ kept_entry entry = Some (key, c).
Proof.
  intros Hloop Hin.
  assert (Hnd : NoDup (dict_keys tags)).
  { apply (collect_tags_loop_NoDup _ _ _ Hloop). constructor. }
  apply (dict_get_In tags key c Hnd) in Hin.
  rewrite (collect_tags_loop_get _ key _ _ Hloop) in Hin.
  destruct (last_kept items key) as [c' |] eqn:Hlast; [| discriminate].
  injection Hin as ->. now apply last_kept_In.
Qed.

End TagOrigins.






(** ** Extension-Info Collector: keys and kinds *)

Lemma dict_set_fresh {V : Type} (d : dict V) (key : string) (v : V) :
  ~ In key (dict_keys d) -> dict_set d key v = (d ++ [(key, v)])%list.
Proof.
  induction d as [| [k w] d IH]; simpl; intros Hnot; [reflexivity |].
  destruct (String.eqb k key) eqn:Hk.
  - apply String.eqb_eq in Hk. tauto.
  - f_equal. apply IH. tauto.
Qed.

Lemma collect_extension_keys (info : info_object) (ext ext' : dict canonical)
  (name : string) :
  ~ In name (dict_keys ext) ->
  collect_extension info ext name = Ok ext' ->
  dict_keys ext' =
    (dict_keys ext ++ if extension_stored info name then [name] else [])%list.
Proof.
  intros Hfresh. unfold collect_extension, extension_stored, stored_extension.
  assert (Hsame : dict_keys ext = (dict_keys ext ++ [])%list) by now rewrite app_nil_r.
  assert (Hset : forall c, dict_keys (dict_set ext name c) = (dict_keys ext ++ [name])%list).
  { intros c. rewrite (dict_set_fresh ext name c Hfresh).
    unfold dict_keys. now rewrite map_app. }
  destruct (info_attr info name) as [value |].
  2: { intros H. now injection H as <-. }
  destruct (shape_of value);
    try (intros H; injection H as <-; exact Hsame);
    unfold bind; destruct (extension_value value) as [[c |] | e];
    try discriminate; intros H; injection H as <-;
    first [apply Hset | exact Hsame].
Qed.

Lemma collect_extensions_loop_keys (info : info_object) (names : list string) :
  forall ext ext',
    NoDup (dict_keys ext ++ names) ->
    collect_extensions_loop info names ext = Ok ext' ->
    dict_keys ext' = (dict_keys ext ++ filter (extension_stored info) names)%list.
Proof.
  induction names as [| name names IH]; intros ext ext' Hnd; simpl.
  - intros H. injection H as <-. now rewrite app_nil_r.
  - unfold bind. destruct (collect_extension info ext name) as [ext1 | e] eqn:Hstep;
      [| discriminate].
    intros Hloop.
    assert (Hfresh : ~ In name (dict_keys ext)).
    { intros Hin. apply NoDup_remove_2 in Hnd. apply Hnd. apply in_or_app. now left. }
    pose proof (collect_extension_keys info ext ext1 name Hfresh Hstep) as Hkeys.
    rewrite (IH ext1 ext'); [| | exact Hloop].
    + rewrite Hkeys. destruct (extension_stored info name); simpl.
      * now rewrite <- app_assoc.
      * now rewrite app_nil_r.
    + rewrite Hkeys. destruct (extension_stored info name).
      * rewrite <- app_assoc. simpl.
        apply NoDup_remove_1 in Hnd as Hnd1. apply NoDup_remove_2 in Hnd as Hnd2.
        apply Permutation_NoDup with (name :: dict_keys ext ++ names).
        -- apply Permutation_middle.
        -- constructor; assumption.
      * rewrite app_nil_r. now apply NoDup_remove_1 in Hnd.
Qed.

Lemma collect_extensions_loop_NoDup (info : info_object) (ext : dict canonical) :
  collect_extensions_loop info extension_attrs [] = Ok ext -> NoDup (dict_keys ext).
Proof.
  intros Hloop.
  rewrite (collect_extensions_loop_keys info extension_attrs [] ext);
    [| apply extension_attrs_NoDup | exact Hloop].
  apply NoDup_filter, extension_attrs_NoDup.
Qed.

(** An entry of the mapping the loop returns is what the loop body stores
    for a name of the allow-list. *)
Lemma collect_extensions_loop_stored (info : info_object) (ext : dict canonical)
  (name : string) (c : canonical) :
  collect_extensions_loop info extension_attrs [] = Ok ext ->
  In (name, c) ext ->
  In name extension_attrs /\ stored_extension info name = Some c.
Proof.
  intros Hloop Hin.
  apply (dict_get_In ext name c (collect_extensions_loop_NoDup info ext Hloop)) in Hin.
  rewrite (collect_extensions_loop_get info extension_attrs extension_attrs_NoDup
             [] ext name Hloop) in Hin.
  destruct (Str.mem name extension_attrs) eqn:Hmem; [| discriminate].
  split; [now apply mem_In |].
  now destruct (stored_extension info name).
Qed.

(** X15: the keys of the mapping [collect_extensions] returns are the
    names of the allow-list under which the loop stores a value, in the
    order of the allow-list; no key comes twice and there are at most 13. *)
Theorem collect_extensions_keys (audio : audio_file) (info : info_object)
  (ext : dict canonical) :
  audio_info audio = Some info ->
  collect_extensions audio = Ok ext ->
  dict_keys ext = filter (extension_stored info) extension_attrs /\
  NoDup (dict_keys ext) /\
  (List.length ext <= 13)%nat.
Proof.
  intros Hinfo. unfold collect_extensions. rewrite Hinfo. intros Hloop.
  assert (Hkeys : dict_keys ext = filter (extension_stored info) extension_attrs).
  { apply (collect_extensions_loop_keys info extension_attrs [] ext);
      [apply extension_attrs_NoDup | exact Hloop]. }
  split; [exact Hkeys |]. split.
  - rewrite Hkeys. apply NoDup_filter, extension_attrs_NoDup.
  - replace (List.length ext) with (List.length (dict_keys ext))
      by (unfold dict_keys; apply length_map).
    rewrite Hkeys.
    pose proof (filter_length_le (extension_stored info) extension_attrs) as Hle.
    exact Hle.
Qed.

Lemma collect_extensions_keys_witness :
  exists ext,
    collect_extensions Examples.mp3_audio = Ok ext /\
    dict_keys ext = ["layer"; "encoder_info"] /\
    (List.length ext <= 13)%nat.
Proof.
  eexists. split; [reflexivity |].
  destruct (collect_extensions_keys Examples.mp3_audio _ _ eq_refl eq_refl)
    as [Hkeys [_ Hlength]].
  split; [exact Hkeys | exact Hlength].
Defined.

(** X16: every entry of the mapping [collect_extensions] returns is
    under a name of the allow-list that the info object has, and it is an
    [int] for an integer or a boolean (1 or 0), a [double] for a finite
    float, or a one-string [text] holding [str] of another value; it is
    never a [bool], a [binary] or a [text] of another length. *)
Theorem collect_extensions_closed (audio : audio_file) (ext : dict canonical)
  (name : string) (c : canonical) :
  collect_extensions audio = Ok ext ->
  In (name, c) ext ->
  In name extension_attrs /\
  exists info value,
    audio_info audio = Some info /\ info_attr info name = Some value /\
    match c with
    | CInt n => shape_of value = SInt n \/
                exists b, shape_of value = SBool b /\ n = (if b then 1 else 0)
    | CDouble x => shape_of value = SFloat x /\ Float.isfinite x = true
    | CText [text] => other_shape value = true /\ py_str value = Ok text
    | _ => False
    end.
Proof.
  intros Hext Hin.
  destruct (audio_info audio) as [info |] eqn:Hinfo.
  2: { unfold collect_extensions in Hext. rewrite Hinfo in Hext.
       injection Hext as <-. destruct Hin. }
  unfold collect_extensions in Hext. rewrite Hinfo in Hext.
  destruct (collect_extensions_loop_stored info ext name c Hext Hin) as [Hname Hstored].
  clear Hin. rename Hstored into Hin.
  split; [exact Hname |].
  unfold stored_extension in Hin.
  destruct (info_attr info name) as [value |] eqn:Hattr; [| discriminate].
  exists info, value. split; [reflexivity |]. split; [exact Hattr |].
  unfold extension_value, bind in Hin. unfold other_shape.
  destruct (shape_of value) eqn:Hshape; simpl in Hin; try discriminate Hin;
    try (destruct (py_str value) as [text | e] eqn:Hstr; [| discriminate Hin];
         injection Hin as <-; now split).
  - injection Hin as <-. right. now exists b.
  - injection Hin as <-. now left.
  - destruct (Float.isfinite x) eqn:Hfin; [| discriminate Hin].
    injection Hin as <-. now split.
Qed.

Lemma collect_extensions_closed_witness :
  collect_extensions Examples.mp3_audio =
    Ok [("layer", CInt 3); ("encoder_info", CText ["LAME"])] /\
  In "encoder_info" extension_attrs /\
  exists info value,
    audio_info Examples.mp3_audio = Some info /\
    info_attr info "encoder_info" = Some value /\
    py_str value = Ok "LAME".
Proof.
  split; [reflexivity |].
  destruct (collect_extensions_closed Examples.mp3_audio
              [("layer", CInt 3); ("encoder_info", CText ["LAME"])]
              "encoder_info" (CText ["LAME"]) eq_refl (or_intror (or_introl eq_refl)))
    as [Hname [info [value [Hinfo [Hattr [_ Hstr]]]]]].
  split; [exact Hname |]. exists info, value.
  split; [exact Hinfo |]. split; [exact Hattr | exact Hstr].
Defined.

(** ** Case Builder: what every case carries *)

Section CaseInvariants.

Context {rt : Runtime}.
Variable mutagen_File : decoder.

(** The fields [build_case] never assigns are those of the initial case. *)
Lemma build_case_header (filename : string) (source_tests : list string)
  (case : fixture_case) :
  build_case mutagen_File filename source_tests = Ok case ->
  caseId case = fst (OsPath.splitext filename) /\
  sourcePythonTest case = sorted_set source_tests /\
  inputFile case = filename /\
  expectedFormat case = format_from_filename filename.
Proof.
  unfold build_case.
  destruct (mutagen_File (OsPath.join DATA_DIR filename)) as [[audio |] | exc].
  - unfold bind.
    destruct (collect_tags audio) as [tags | e]; [| discriminate].
    destruct (collect_extensions audio) as [ext | e]; [| discriminate].
    intros H. injection H as <-. destruct (audio_info audio); now repeat split.
  - intros H. injection H as <-. now repeat split.
  - intros H. injection H as <-. now repeat split.
Qed.

Lemma safe_number_finite (value : pyval) (x : Float.t) :
  safe_number value = Some (NumFloat x) -> Float.isfinite x = true.
Proof.
  unfold safe_number, convert_number.
  destruct (shape_of value);
    try discriminate;
    try (destruct (py_float value) as [v | e]; [| discriminate];
         destruct (Float.isfinite v) eqn:Hfin; [| discriminate];
         destruct (near_integer v); [discriminate |];
         intros H; injection H as <-; exact Hfin).
  destruct (Float.isfinite x0) eqn:Hfin; [| discriminate].
  intros H. now injection H as <-.
Qed.

Lemma core_field_finite (info : info_object) (name : string) (x : Float.t) :
  core_field info name = Some (NumFloat x) -> Float.isfinite x = true.
Proof.
  unfold core_field. destruct (info_attr info name); apply safe_number_finite.
Qed.

End CaseInvariants.

(** X17: whatever the decoder does, a case [build_case] returns has the
    file name as its [inputFile], a [caseId] that gives the file name back
    with the extension, a canonical [expectedFormat], and as
    [sourcePythonTest] the source tests in increasing order, each once. *)
Theorem build_case_identity `{rt : Runtime} (mutagen_File : decoder)
  (filename : string) (source_tests : list string) (case : fixture_case) :
  build_case mutagen_File filename source_tests = Ok case ->
  inputFile case = filename /\
  caseId case ++ snd (OsPath.splitext filename) = filename /\
  In (expectedFormat case) canonical_formats /\
  StronglySorted string_le (sourcePythonTest case) /\
  NoDup (sourcePythonTest case) /\
  (forall t, In t (sourcePythonTest case) <-> In t source_tests).
Proof.
  intros Hcase.
  destruct (build_case_header mutagen_File filename source_tests case Hcase)
    as [Hid [Htests [Hinput Hformat]]].
  rewrite Hid, Htests, Hformat.
  assert (Hperm : Permutation (sorted_set source_tests) (nodup string_dec source_tests)).
  { apply sort_by_Permutation. }
  split; [exact Hinput |].
  split; [apply splitext_concat |].
  split; [apply format_of_ext_canonical |].
  split; [apply sort_by_sorted |].
  split.
  - apply Permutation_NoDup with (nodup string_dec source_tests);
      [now apply Permutation_sym | apply NoDup_nodup].
  - intros t. split; intros H.
    + apply (Permutation_in t Hperm) in H. now apply nodup_In in H.
    + apply (Permutation_in t (Permutation_sym Hperm)). now apply nodup_In.
Qed.

Lemma build_case_identity_witness :
  exists case,
    build_case (rt := Examples.runtime) Examples.sample_decoder "silence.mp3"
      ["test_mp3.py"; "test_id3.py"; "test_mp3.py"] = Ok case /\
    inputFile case = "silence.mp3" /\
    caseId case ++ snd (OsPath.splitext "silence.mp3") = "silence.mp3" /\
    NoDup (sourcePythonTest case).
Proof.
  eexists. split; [reflexivity |].
  destruct (build_case_identity (rt := Examples.runtime) Examples.sample_decoder
              "silence.mp3" ["test_mp3.py"; "test_id3.py"; "test_mp3.py"] _ eq_refl)
    as [Hinput [Hid [_ [_ [Hnodup _]]]]].
  split; [exact Hinput |]. split; [exact Hid | exact Hnodup].
Defined.

(** X18: the error of a case tells what the decoder did.  When the
    decoder raises, [build_case] returns a case with the code
    "invalidHeader" and the message of the error; a case with an error has
    the code "invalidHeader" and the decoder raised its message, or the code
    "unsupportedFormat" and the decoder returned [None]; a case without
    error comes from a decoded file. *)
Theorem build_case_outcomes `{rt : Runtime} (mutagen_File : decoder)
  (filename : string) (source_tests : list string) :
  (forall exc, mutagen_File (OsPath.join DATA_DIR filename) = Raise exc ->
     exists case,
       build_case mutagen_File filename source_tests = Ok case /\
       expectedError case = Some {| code := "invalidHeader"; message := exc |}) /\
  (forall case err,
     build_case mutagen_File filename source_tests = Ok case ->
     expectedError case = Some err ->
     (code err = "invalidHeader" /\
      mutagen_File (OsPath.join DATA_DIR filename) = Raise (message err)) \/
     (code err = "unsupportedFormat" /\
      mutagen_File (OsPath.join DATA_DIR filename) = Ok None)) /\
  (forall case,
     build_case mutagen_File filename source_tests = Ok case ->
     expectedError case = None ->
     exists audio, mutagen_File (OsPath.join DATA_DIR filename) = Ok (Some audio)).
Proof.
  unfold build_case.
  destruct (mutagen_File (OsPath.join DATA_DIR filename)) as [[audio |] | exc];
    repeat split.
  - discriminate.
  - intros case err. unfold bind.
    destruct (collect_tags audio) as [tags | e]; [| discriminate].
    destruct (collect_extensions audio) as [ext | e]; [| discriminate].
    intros H. injection H as <-. destruct (audio_info audio); discriminate.
  - intros case _ _. now exists audio.
  - discriminate.
  - intros case err H. injection H as <-. simpl. intros H. injection H as <-.
    right. now split.
  - intros case H. injection H as <-. discriminate.
  - intros exc' H. injection H as <-. eexists. split; reflexivity.
  - intros case err H. injection H as <-. simpl. intros H. injection H as <-.
    left. now split.
  - intros case H. injection H as <-. discriminate.
Qed.

(** X19: [build_case] raises exactly when the decoder returns a decoded
    file and [collect_tags] raises on it, or [collect_tags] returns and
    [collect_extensions] raises: an error of the decoder is never raised. *)
Theorem build_case_raises `{rt : Runtime} (mutagen_File : decoder)
  (filename : string) (source_tests : list string) (e : exn) :
  build_case mutagen_File filename source_tests = Raise e <->
  exists audio,
    mutagen_File (OsPath.join DATA_DIR filename) = Ok (Some audio) /\
    (collect_tags audio = Raise e \/
     (exists tags, collect_tags audio = Ok tags) /\ collect_extensions audio = Raise e).
Proof.
  unfold build_case.
  destruct (mutagen_File (OsPath.join DATA_DIR filename)) as [[audio |] | exc].
  - unfold bind. split.
    + intros H. exists audio. split; [reflexivity |].
      destruct (collect_tags audio) as [tags | e'].
      * right. split; [now exists tags |].
        destruct (collect_extensions audio); [discriminate | now injection H as ->].
      * left. now injection H as ->.
    + intros [audio' [Heq H]]. injection Heq as <-.
      destruct H as [-> | [[tags ->] ->]]; reflexivity.
  - split; [discriminate | intros [audio [H _]]; discriminate].
  - split; [discriminate | intros [audio [H _]]; discriminate].
Qed.

(** X20: in a case [build_case] returns, a float in one of the five
    fields of [expectedCoreInfo] is finite, and so is every [double] among
    the expected tags and the expected extensions. *)
Theorem build_case_finite `{rt : Runtime} (mutagen_File : decoder)
  (filename : string) (source_tests : list string) (case : fixture_case) :
  build_case mutagen_File filename source_tests = Ok case ->
  (forall x,
     length (expectedCoreInfo case) = Some (NumFloat x) \/
     bitrate (expectedCoreInfo case) = Some (NumFloat x) \/
     sampleRate (expectedCoreInfo case) = Some (NumFloat x) \/
     channels (expectedCoreInfo case) = Some (NumFloat x) \/
     bitsPerSample (expectedCoreInfo case) = Some (NumFloat x) ->
     Float.isfinite x = true) /\
  (forall key x, In (key, CDouble x) (expectedTags case) -> Float.isfinite x = true) /\
  (forall name x, In (name, CDouble x) (expectedExtensions case) ->
     Float.isfinite x = true).
Proof.
  intros Hcase.
  destruct (mutagen_File (OsPath.join DATA_DIR filename)) as [[audio |] | exc] eqn:Hdec.
  - destruct (build_case_decoded mutagen_File filename source_tests audio case Hdec Hcase)
      as [_ [Hcore [Htags Hext]]].
    repeat split.
    + intros x Hfield. rewrite Hcore in Hfield.
      destruct (audio_info audio) as [info |]; simpl in Hfield.
      * destruct Hfield as [H | [H | [H | [H | H]]]];
          now apply core_field_finite in H.
      * destruct Hfield as [H | [H | [H | [H | H]]]]; discriminate.
    + intros key x Hin. unfold collect_tags in Htags.
      destruct (audio_tags audio) as [source |].
      * destruct (collect_tags_loop_origin _ _ key (CDouble x) Htags Hin)
          as [entry [_ Hkept]].
        apply kept_entry_inv in Hkept. destruct Hkept as [_ [_ Hnorm]].
        now apply normalize_double_finite with (snd entry).
      * injection Htags as Htags. rewrite <- Htags in Hin. destruct Hin.
    + intros name x Hin. unfold collect_extensions in Hext.
      destruct (audio_info audio) as [info |].
      * destruct (collect_extensions_loop_stored info _ name (CDouble x) Hext Hin)
          as [_ Hstored].
        unfold stored_extension in Hstored.
        destruct (info_attr info name) as [value |]; [| discriminate].
        unfold extension_value, bind in Hstored.
        destruct (shape_of value); try discriminate;
          try (destruct (py_str value); discriminate).
        destruct (Float.isfinite x0) eqn:Hfin; [| discriminate].
        now injection Hstored as <-.
      * injection Hext as Hext. rewrite <- Hext in Hin. destruct Hin.
  - assert (Herr : expectedError case <> None).
    { unfold build_case in Hcase. rewrite Hdec in Hcase. injection Hcase as <-. discriminate. }
    destruct (expectedError case) as [err |] eqn:Heq; [| congruence].
    rewrite (build_case_error mutagen_File filename source_tests case err Hcase Heq).
    simpl. repeat split; try (intros ? ? []).
    intros x [H | [H | [H | [H | H]]]]; discriminate.
  - assert (Herr : expectedError case <> None).
    { unfold build_case in Hcase. rewrite Hdec in Hcase. injection Hcase as <-. discriminate. }
    destruct (expectedError case) as [err |] eqn:Heq; [| congruence].
    rewrite (build_case_error mutagen_File filename source_tests case err Hcase Heq).
    simpl. repeat split; try (intros ? ? []).
    intros x [H | [H | [H | [H | H]]]]; discriminate.
Qed.

Lemma build_case_finite_witness :
  exists case,
    build_case (rt := Examples.runtime) Examples.sample_decoder "silence.mp3" [] = Ok case /\
    length (expectedCoreInfo case) = Some (NumFloat Examples.float_2_5) /\
    Float.isfinite Examples.float_2_5 = true.
Proof.
  eexists. split; [reflexivity |]. split; [reflexivity |].
  destruct (build_case_finite (rt := Examples.runtime) Examples.sample_decoder
              "silence.mp3" [] _ eq_refl) as [Hcore _].
  apply Hcore. left. reflexivity.
Defined.

(** X21: [safe_number] returns [None] exactly for [None], for a float
    that is not finite, and for a value that is none of [None], bool, int
    and float and that [float()] rejects or converts to a float that is not
    finite. *)
Theorem safe_number_absent (value : pyval) :
  safe_number value = None <->
  shape_of value = SNone \/
  (exists x, shape_of value = SFloat x /\ Float.isfinite x = false) \/
  (other_shape value = true /\
   ((exists e, py_float value = Raise e) \/
    (exists v, py_float value = Ok v /\ Float.isfinite v = false))).
Proof.
  unfold safe_number, convert_number, other_shape.
  assert (Hother :
    match py_float value with
    | Ok v =>
        if Float.isfinite v
        then if near_integer v then Some (NumInt (Float.trunc v)) else Some (NumFloat v)
        else None
    | Raise _ => None
    end = None <->
    (exists e, py_float value = Raise e) \/
    (exists v, py_float value = Ok v /\ Float.isfinite v = false)).
  { destruct (py_float value) as [v | e].
    - destruct (Float.isfinite v) eqn:Hfin.
      + split.
        * destruct (near_integer v); discriminate.
        * intros [[e H] | [v' [H Hv]]]; [discriminate |].
          injection H as <-. congruence.
      + split; [| reflexivity]. intros _. right. now exists v.
    - split; [| reflexivity]. intros _. left. now exists e. }
  destruct (shape_of value) eqn:Hshape;
    try (rewrite Hother; split;
         [ intros H; right; right; now split
         | intros [H | [[x [H _]] | [_ H]]]; [discriminate | discriminate | exact H] ]).
  - split; [now left | reflexivity].
  - split; [discriminate |].
    intros [H | [[x [H _]] | [H _]]]; discriminate.
  - split; [discriminate |].
    intros [H | [[x [H _]] | [H _]]]; discriminate.
  - destruct (Float.isfinite x) eqn:Hfin.
    + split; [discriminate |].
      intros [H | [[y [H Hy]] | [H _]]]; try discriminate.
      injection H as <-. congruence.
    + split; [| reflexivity]. intros _. right. left. now exists x.
Qed.

(** ** Fixture Writer: grouping and order *)

Section SortByKey.

Context {A : Type}.
Variable key : A -> string.

Lemma insert_by_key_sorted (x : A) (l : list A) :
  StronglySorted (key_le key) l -> StronglySorted (key_le key) (insert_by key x l).
Proof.
  induction l as [| y l IH]; simpl; intros Hsorted.
  - constructor; constructor.
  - inversion Hsorted as [| ? ? Hl Hy]; subst.
    destruct (String.leb (key x) (key y)) eqn:Hxy.
    + constructor; [exact Hsorted |].
      constructor; [exact Hxy |].
      apply Forall_impl with (P := key_le key y); [| exact Hy].
      intros z Hyz. now apply string_le_trans with (key y).
    + constructor; [now apply IH |].
      apply Permutation_Forall with (x :: l);
        [apply Permutation_sym, insert_by_Permutation |].
      constructor; [| exact Hy].
      unfold key_le, string_le.
      destruct (String.leb_total (key x) (key y)) as [H | H]; [congruence | exact H].
Qed.

Lemma sort_by_key_sorted (l : list A) : StronglySorted (key_le key) (sort_by key l).
Proof.
  induction l as [| x l IH]; simpl.
  - constructor.
  - now apply insert_by_key_sorted.
Qed.

(** Sorting a sorted list changes nothing. *)
Lemma sort_by_sorted_id (l : list A) :
  StronglySorted (key_le key) l -> sort_by key l = l.
Proof.
  induction l as [| x l IH]; simpl; intros Hsorted; [reflexivity |].
  inversion Hsorted as [| ? ? Hl Hx]; subst.
  rewrite (IH Hl). destruct l as [| y l]; simpl; [reflexivity |].
  inversion Hx as [| ? ? Hxy _]; subst.
  unfold key_le, string_le in Hxy. now rewrite Hxy.
Qed.

End SortByKey.

Lemma Permutation_concat {A : Type} (l l' : list (list A)) :
  Permutation l l' -> Permutation (List.concat l) (List.concat l').
Proof.
  induction 1 as [| x l l' _ IH | x y l | l l' l'' _ IH1 _ IH2]; simpl.
  - apply perm_nil.
  - now apply Permutation_app_head.
  - rewrite !app_assoc. apply Permutation_app_tail, Permutation_app_comm.
  - now apply perm_trans with (List.concat l').
Qed.

Section Grouping.

Context {A : Type}.

Lemma dict_append_cons (k : string) (l : list A) (d : dict (list A)) (key : string) (x : A) :
  String.eqb k key = false ->
  dict_append ((k, l) :: d) key x = (k, l) :: dict_append d key x.
Proof.
  intros Hk. unfold dict_append. simpl. rewrite Hk.
  destruct (dict_get d key); simpl; rewrite ?Hk; reflexivity.
Qed.

Lemma dict_append_concat (d : dict (list A)) (key : string) (x : A) :
  Permutation (List.concat (map snd (dict_append d key x)))
    (x :: List.concat (map snd d)).
Proof.
  induction d as [| [k l] d IH].
  - apply Permutation_refl.
  - destruct (String.eqb k key) eqn:Hk.
    + unfold dict_append. simpl. rewrite Hk. simpl. rewrite ?Hk. simpl.
      rewrite <- app_assoc. simpl.
      apply Permutation_sym, Permutation_middle.
    + rewrite (dict_append_cons k l d key x Hk). simpl.
      apply perm_trans with (l ++ x :: List.concat (map snd d))%list.
      * now apply Permutation_app_head.
      * apply Permutation_sym, Permutation_middle.
Qed.

Lemma dict_append_get (d : dict (list A)) (key key' : string) (x : A) :
  dict_get (dict_append d key x) key' =
  if String.eqb key key' then
    Some (match dict_get d key with Some l => l ++ [x] | None => [x] end)%list
  else dict_get d key'.
Proof.
  unfold dict_append. destruct (dict_get d key); apply dict_get_set.
Qed.

Lemma dict_append_NoDup (d : dict (list A)) (key : string) (x : A) :
  NoDup (dict_keys d) -> NoDup (dict_keys (dict_append d key x)).
Proof.
  unfold dict_append. destruct (dict_get d key); apply dict_set_NoDup.
Qed.

End Grouping.

Lemma StronglySorted_map_key {A : Type} (key : A -> string) (l : list A) :
  StronglySorted (key_le key) l -> StronglySorted string_le (map key l).
Proof.
  induction 1 as [| x l _ IH Hx]; simpl; constructor; [exact IH |].
  rewrite Forall_forall in *. intros k Hk. apply in_map_iff in Hk.
  destruct Hk as [y [<- Hy]]. now apply Hx.
Qed.

Lemma StronglySorted_snoc {A : Type} (R : A -> A -> Prop) (l : list A) (x : A) :
  StronglySorted R l -> (forall y, In y l -> R y x) -> StronglySorted R (l ++ [x]).
Proof.
  induction 1 as [| y l _ IH Hy]; simpl; intros Hx.
  - constructor; constructor.
  - constructor.
    + apply IH. intros z Hz. apply Hx. now right.
    + apply Forall_app. split; [exact Hy |].
      constructor; [| constructor]. apply Hx. now left.
Qed.

Section BuildCases.

Context {rt : Runtime}.
Variable mutagen_File : decoder.
Variable mapping : dict (list string).

Lemma grouped_append (by_format : dict (list fixture_case)) (case : fixture_case) :
  grouped by_format -> grouped (dict_append by_format (expectedFormat case) case).
Proof.
  intros [Hnd Hgroups]. split; [now apply dict_append_NoDup |].
  intros fmt cases. rewrite dict_append_get.
  destruct (String.eqb (expectedFormat case) fmt) eqn:Hfmt.
  - apply String.eqb_eq in Hfmt. intros H. injection H as <-.
    destruct (dict_get by_format (expectedFormat case)) as [l |] eqn:Hget.
    + destruct (Hgroups _ _ Hget) as [_ Hall]. split.
      * intros Hnil. apply app_eq_nil in Hnil. destruct Hnil; discriminate.
      * intros c Hin. apply in_app_or in Hin.
        destruct Hin as [Hin | [<- | []]]; [| exact Hfmt].
        rewrite <- Hfmt. now apply Hall.
    + split; [discriminate |]. intros c [<- | []]. exact Hfmt.
  - apply Hgroups.
Qed.

Lemma build_cases_grouped (files : list string) :
  forall by_format by_format',
    grouped by_format ->
    build_cases mutagen_File mapping files by_format = Ok by_format' ->
    grouped by_format'.
Proof.
  induction files as [| f files IH]; intros by_format by_format' Hgrouped; simpl.
  - intros H. now injection H as <-.
  - unfold bind.
    destruct (build_case mutagen_File f (mapping_get mapping f)) as [case | e];
      [| discriminate].
    apply IH. now apply grouped_append.
Qed.

Lemma build_cases_input_files (files : list string) :
  forall by_format by_format',
    build_cases mutagen_File mapping files by_format = Ok by_format' ->
    Permutation (map inputFile (all_cases by_format'))
      (map inputFile (all_cases by_format) ++ files).
Proof.
  induction files as [| f files IH]; intros by_format by_format'; simpl.
  - intros H. injection H as <-. now rewrite app_nil_r.
  - unfold bind.
    destruct (build_case mutagen_File f (mapping_get mapping f)) as [case | e] eqn:Hcase;
      [| discriminate].
    intros Hloop. apply IH in Hloop.
    apply perm_trans with (1 := Hloop).
    destruct (build_case_header mutagen_File f _ case Hcase) as [_ [_ [Hinput _]]].
    apply perm_trans with ((f :: map inputFile (all_cases by_format)) ++ files)%list.
    + apply Permutation_app_tail. rewrite <- Hinput.
      apply (Permutation_map inputFile (l' := case :: all_cases by_format)).
      apply dict_append_concat.
    + simpl. apply Permutation_middle.
Qed.



Lemma ordered_before_append (by_format : dict (list fixture_case))
  (case : fixture_case) (files : list string) :
  StronglySorted string_le (inputFile case :: files) ->
  ordered_before by_format (inputFile case :: files) ->
  ordered_before (dict_append by_format (expectedFormat case) case) files.
Proof.
  intros Hsorted Hord fmt cases. rewrite dict_append_get.
  inversion Hsorted as [| ? ? _ Hfirst]; subst. rewrite Forall_forall in Hfirst.
  destruct (String.eqb (expectedFormat case) fmt).
  - intros H. injection H as <-.
    destruct (dict_get by_format (expectedFormat case)) as [l |] eqn:Hget.
    + destruct (Hord _ _ Hget) as [Hl Hbefore]. split.
      * apply StronglySorted_snoc; [exact Hl |].
        intros c Hc. apply Hbefore; [exact Hc | now left].
      * intros c f Hc Hf. apply in_app_or in Hc.
        destruct Hc as [Hc | [<- | []]].
        -- apply Hbefore; [exact Hc | now right].
        -- now apply Hfirst.
    + split.
      * constructor; constructor.
      * intros c f [<- | []] Hf. now apply Hfirst.
  - intros Hget. destruct (Hord _ _ Hget) as [Hl Hbefore].
    split; [exact Hl |]. intros c f Hc Hf. apply Hbefore; [exact Hc | now right].
Qed.

Lemma build_cases_ordered (files : list string) :
  forall by_format by_format',
    StronglySorted string_le files ->
    ordered_before by_format files ->
    build_cases mutagen_File mapping files by_format = Ok by_format' ->
    ordered_before by_format' [].
Proof.
  induction files as [| f files IH]; intros by_format by_format' Hsorted Hord; simpl.
  - intros H. now injection H as <-.
  - unfold bind.
    destruct (build_case mutagen_File f (mapping_get mapping f)) as [case | e] eqn:Hcase;
      [| discriminate].
    destruct (build_case_header mutagen_File f _ case Hcase) as [_ [_ [Hinput _]]].
    apply IH.
    + now inversion Hsorted.
    + apply ordered_before_append; now rewrite Hinput.
Qed.

End BuildCases.

(** X22: when [main] returns, it has written one document for each
    format that some file has, in the strictly increasing order of the
    formats, and then the index that lists them; the cases of a document are
    not empty and have its format, and the input files of all the cases are
    the files, each once. *)
Theorem main_documents `{rt : Runtime} (mutagen_File : decoder)
  (files : list string) (mapping : dict (list string)) (docs : list (string * json)) :
  main mutagen_File files mapping = Ok docs ->
  exists groups,
    docs =
      (map (fun group => fst (write_format group)) groups ++
       [(OsPath.join OUTPUT_DIR "index.json",
         JObject [("files", JArray (map (fun group => snd (write_format group)) groups))])])%list /\
    StronglySorted string_le (map fst groups) /\
    NoDup (map fst groups) /\
    (forall fmt cases, In (fmt, cases) groups ->
       cases <> [] /\ forall c, In c cases -> expectedFormat c = fmt) /\
    Permutation (map inputFile (all_cases groups)) files.
Proof.
  unfold main. destruct files as [| f files]; [discriminate |].
  unfold bind.
  destruct (build_cases mutagen_File mapping (f :: files) []) as [by_format | e] eqn:Hloop;
    [| discriminate].
  intros H. injection H as <-.
  pose proof (sort_by_Permutation fst by_format) as Hperm.
  assert (Hgrouped : grouped by_format).
  { apply (build_cases_grouped mutagen_File mapping (f :: files) [] by_format);
      [| exact Hloop].
    split; [constructor | discriminate]. }
  destruct Hgrouped as [Hnd Hgroups].
  exists (sort_by fst by_format). rewrite !map_map.
  split; [reflexivity |].
  split; [apply StronglySorted_map_key, sort_by_key_sorted |].
  split.
  { apply Permutation_NoDup with (dict_keys by_format); [| exact Hnd].
    apply Permutation_sym, Permutation_map, Hperm. }
  split.
  - intros fmt cases Hin. apply (Permutation_in _ Hperm) in Hin.
    apply Hgroups. now apply dict_get_In.
  - apply perm_trans with (map inputFile (all_cases by_format)).
    + apply Permutation_map, Permutation_concat, Permutation_map, Hperm.
    + apply (build_cases_input_files mutagen_File mapping (f :: files) [] by_format Hloop).
Qed.

Lemma main_documents_witness :
  exists docs groups,
    main (rt := Examples.runtime) Examples.sample_decoder MoreExamples.scanned_files
      MoreExamples.scanned_mapping = Ok docs /\
    NoDup (map fst groups) /\
    Permutation (map inputFile (all_cases groups)) MoreExamples.scanned_files.
Proof.
  destruct (main (rt := Examples.runtime) Examples.sample_decoder
              MoreExamples.scanned_files MoreExamples.scanned_mapping)
    as [docs | e] eqn:Hmain; [| vm_compute in Hmain; discriminate Hmain].
  destruct (main_documents (rt := Examples.runtime) Examples.sample_decoder
              MoreExamples.scanned_files MoreExamples.scanned_mapping docs Hmain)
    as [groups [_ [_ [Hnodup [_ Hperm]]]]].
  exists docs, groups. split; [reflexivity |]. split; [exact Hnodup | exact Hperm].
Defined.


Lemma build_cases_sorted_groups `{rt : Runtime} (mutagen_File : decoder)
  (files : list string) (mapping : dict (list string))
  (by_format : dict (list fixture_case)) :
  StronglySorted string_le files ->
  build_cases mutagen_File mapping files [] = Ok by_format ->
  forall fmt cases, In (fmt, cases) by_format ->
    StronglySorted (key_le inputFile) cases.
Proof.
  intros Hsorted Hloop fmt cases Hin.
  assert (Hnd : NoDup (dict_keys by_format)).
  { apply (build_cases_grouped mutagen_File mapping files [] by_format);
      [| exact Hloop].
    split; [constructor | discriminate]. }
  assert (Hord : ordered_before by_format []).
  { apply (build_cases_ordered mutagen_File mapping files [] by_format Hsorted);
      [| exact Hloop].
    intros fmt' cases' H. discriminate H. }
  apply (dict_get_In by_format fmt cases Hnd) in Hin.
  now destruct (Hord fmt cases Hin).
Qed.

(** ** The JSON documents *)








(** ** Reference scanner *)

Lemma fold_left_invariant {S A : Type} (P : S -> Prop) (f : S -> A -> S) (l : list A) :
  (forall s x, In x l -> P s -> P (f s x)) ->
  forall s, P s -> P (fold_left f l s).
Proof.
  induction l as [| x l IH]; intros Hstep s Hs; simpl; [exact Hs |].
  apply IH.
  - intros s' y Hy. apply Hstep. now right.
  - apply Hstep; [now left | exact Hs].
Qed.

Lemma dict_get_keys {V : Type} (d : dict V) (key : string) :
  In key (dict_keys d) <-> dict_get d key <> None.
Proof.
  induction d as [| [k v] d IH]; simpl.
  - split; [intros [] | congruence].
  - destruct (String.eqb k key) eqn:Hk.
    + apply String.eqb_eq in Hk. split; [discriminate | now left].
    + apply String.eqb_neq in Hk. rewrite <- IH. split; [| tauto].
      intros [H | H]; [contradiction | exact H].
Qed.

Section ScannerFacts.

Context {rt : Runtime} {tree : TestTree}.

Lemma scan_match_invariant (test_file name : string) (state : scan_state) :
  names_file test_file name ->
  scan_invariant state -> scan_invariant (scan_match test_file state name).
Proof.
  intros Hnames Hinv. destruct state as [found mapping]. unfold scan_match.
  destruct (String.eqb name "does") eqn:Hdoes; [exact Hinv |].
  destruct (path_isfile (OsPath.join DATA_DIR name)) eqn:Hfile; [| exact Hinv].
  destruct Hinv as [Hnd [Hkeys Hentries]]. simpl in *.
  assert (Hget : forall key, dict_get (dict_append mapping name test_file) key =
            if String.eqb name key
            then Some (match dict_get mapping name with
                       | Some l => l ++ [test_file]
                       | None => [test_file]
                       end)%list
            else dict_get mapping key) by (intros key; apply dict_append_get).
  unfold scan_invariant. cbn [fst snd].
  split; [now apply dict_append_NoDup |]. split.
  - intros key. rewrite dict_get_keys, Hget, in_app_iff, Hkeys, dict_get_keys.
    destruct (String.eqb name key) eqn:Hk.
    + apply String.eqb_eq in Hk. subst key. split; [discriminate |].
      intros _. right. now left.
    + apply String.eqb_neq in Hk. split; [| tauto].
      intros [H | [H | []]]; [exact H | contradiction].
  - intros key tests. rewrite Hget.
    destruct (String.eqb name key) eqn:Hk; [| apply Hentries].
    apply String.eqb_eq in Hk. subst key. intros H. injection H as <-.
    apply String.eqb_neq in Hdoes.
    destruct (dict_get mapping name) as [l |] eqn:Hl.
    + destruct (Hentries name l Hl) as [_ [_ [_ Hall]]].
      split; [intros Hnil; apply app_eq_nil in Hnil; destruct Hnil; discriminate |].
      split; [exact Hdoes |]. split; [exact Hfile |].
      intros t Ht. apply in_app_or in Ht.
      destruct Ht as [Ht | [<- | []]]; [now apply Hall | exact Hnames].
    + split; [discriminate |]. split; [exact Hdoes |]. split; [exact Hfile |].
      intros t [<- | []]. exact Hnames.
Qed.

Lemma scan_pattern_invariant (test_file text : string) (pat : pattern)
  (state : scan_state) :
  In test_file INCLUDED_TEST_FILES ->
  path_exists (OsPath.join TESTS_DIR test_file) = true ->
  read_text (OsPath.join TESTS_DIR test_file) = Ok text ->
  In pat patterns ->
  scan_invariant state -> scan_invariant (scan_pattern test_file text state pat).
Proof.
  intros Hincluded Hexists Hread Hpat Hinv. unfold scan_pattern.
  apply fold_left_invariant; [| exact Hinv].
  intros s name Hname Hs. apply scan_match_invariant; [| exact Hs].
  split; [exact Hincluded |]. split; [exact Hexists |].
  exists pat, text. now repeat split.
Qed.

Lemma scan_test_file_invariant (test_file : string) (state state' : scan_state) :
  In test_file INCLUDED_TEST_FILES ->
  scan_invariant state ->
  scan_test_file state test_file = Ok state' ->
  scan_invariant state'.
Proof.
  intros Hincluded Hinv. unfold scan_test_file.
  destruct (path_exists (OsPath.join TESTS_DIR test_file)) eqn:Hexists; cbn [negb].
  2: { intros H. now injection H as <-. }
  destruct (read_text (OsPath.join TESTS_DIR test_file)) as [text | e] eqn:Hread;
    [| discriminate].
  unfold bind. intros H. injection H as <-.
  apply (fold_left_invariant scan_invariant (scan_pattern test_file text) patterns);
    [| exact Hinv].
  intros s pat Hpat Hs. now apply scan_pattern_invariant.
Qed.

Lemma scan_test_files_invariant (test_files : list string) :
  (forall test_file, In test_file test_files -> In test_file INCLUDED_TEST_FILES) ->
  forall state state',
    scan_invariant state ->
    scan_test_files test_files state = Ok state' ->
    scan_invariant state'.
Proof.
  induction test_files as [| test_file test_files IH]; intros Hall state state' Hinv; simpl.
  - intros H. now injection H as <-.
  - unfold bind.
    destruct (scan_test_file state test_file) as [state1 | e] eqn:Hstep; [| discriminate].
    apply IH.
    + intros t Ht. apply Hall. now right.
    + apply (scan_test_file_invariant test_file state state1); auto.
      apply Hall. now left.
Qed.

Lemma sorted_set_In (l : list string) (s : string) :
  In s (sorted_set l) <-> In s l.
Proof.
  unfold sorted_set. rewrite <- (nodup_In string_dec l s).
  split; apply Permutation_in;
    [apply sort_by_Permutation | apply Permutation_sym, sort_by_Permutation].
Qed.

Lemma sorted_set_NoDup (l : list string) : NoDup (sorted_set l).
Proof.
  apply Permutation_NoDup with (nodup string_dec l);
    [apply Permutation_sym, sort_by_Permutation | apply NoDup_nodup].
Qed.

Lemma parse_referenced_files_invariant (files : list string)
  (mapping : dict (list string)) :
  parse_referenced_files = Ok (files, mapping) ->
  exists found, files = sorted_set found /\ scan_invariant (found, mapping).
Proof.
  unfold parse_referenced_files, bind.
  destruct (scan_test_files (sorted_set INCLUDED_TEST_FILES) ([], []))
    as [[found mapping'] | e] eqn:Hscan; [| discriminate].
  simpl. intros H. injection H as <- <-. exists found. split; [reflexivity |].
  apply (scan_test_files_invariant (sorted_set INCLUDED_TEST_FILES)) with (state := ([], []));
    [| | exact Hscan].
  - intros t Ht. exact (proj1 (sorted_set_In INCLUDED_TEST_FILES t) Ht).
  - split; [constructor |]. split; [reflexivity |]. discriminate.
Qed.

End ScannerFacts.

(** X26: the scan returns its files in strictly increasing order,
    and they are the keys of the mapping.  A file it returns is not "does",
    is a file of the data directory, and has at least one test in the
    mapping; each test there is an included test file that exists and in
    which one of the two patterns finds the name of the file. *)
Theorem parse_referenced_files_sound `{rt : Runtime} `{tree : TestTree}
  (files : list string) (mapping : dict (list string)) :
  parse_referenced_files = Ok (files, mapping) ->
  StronglySorted string_le files /\ NoDup files /\
  (forall name, In name files <-> dict_get mapping name <> None) /\
  (forall name, In name files ->
     name <> "does" /\ path_isfile (OsPath.join DATA_DIR name) = true /\
     mapping_get mapping name <> [] /\
     forall test_file, In test_file (mapping_get mapping name) ->
       names_file test_file name).
Proof.
  intros Hparse.
  destruct (parse_referenced_files_invariant files mapping Hparse)
    as [found [-> [Hnd [Hkeys Hentries]]]].
  simpl in *.
  split; [apply sort_by_sorted |]. split; [apply sorted_set_NoDup |].
  assert (Hfiles : forall name,
            In name (sorted_set found) <-> dict_get mapping name <> None).
  { intros name. now rewrite sorted_set_In, Hkeys, dict_get_keys. }
  split; [exact Hfiles |].
  intros name Hin. apply Hfiles in Hin. unfold mapping_get.
  destruct (dict_get mapping name) as [tests |] eqn:Hget; [| congruence].
  destruct (Hentries name tests Hget) as [Hne [Hdoes [Hfile Hall]]].
  split; [exact Hdoes |]. split; [exact Hfile |]. split; [exact Hne | exact Hall].
Qed.

Lemma parse_referenced_files_sound_witness :
  parse_referenced_files (rt := Examples.runtime) (tree := MoreExamples.tree) =
    Ok (MoreExamples.scanned_files, MoreExamples.scanned_mapping) /\
  NoDup MoreExamples.scanned_files /\
  path_isfile (TestTree := MoreExamples.tree)
    (OsPath.join (DATA_DIR (Runtime := Examples.runtime)) "empty.ofr") = true /\
  names_file (tree := MoreExamples.tree) "test_optimfrog.py" "empty.ofr".
Proof.
  split; [reflexivity |].
  destruct (parse_referenced_files_sound (rt := Examples.runtime)
              (tree := MoreExamples.tree) MoreExamples.scanned_files
              MoreExamples.scanned_mapping eq_refl) as [_ [Hnodup [_ Hfiles]]].
  split; [exact Hnodup |].
  destruct (Hfiles "empty.ofr" (or_intror (or_introl eq_refl)))
    as [_ [Hfile [_ Htests]]].
  split; [exact Hfile |].
  apply Htests. left. reflexivity.
Defined.

(** X27: the files of a scan come sorted, so that the cases of every
    format are built in the order of their input files: the sort of the
    cases before a document is written changes nothing. *)
Theorem run_sort_redundant `{rt : Runtime} `{tree : TestTree}
  (mutagen_File : decoder) (files : list string) (mapping : dict (list string))
  (by_format : dict (list fixture_case)) :
  parse_referenced_files = Ok (files, mapping) ->
  build_cases mutagen_File mapping files [] = Ok by_format ->
  forall fmt cases, In (fmt, cases) by_format ->
    sort_by inputFile cases = cases /\
    fst (write_format (fmt, cases)) =
      (OsPath.join OUTPUT_DIR (fmt ++ ".json"),
       JObject [("format", JString fmt); ("cases", JArray (map json_of_case cases))]).
Proof.
  intros Hparse Hloop fmt cases Hin.
  destruct (parse_referenced_files_invariant files mapping Hparse) as [found [-> _]].
  assert (Hid : sort_by inputFile cases = cases).
  { apply sort_by_sorted_id.
    apply (build_cases_sorted_groups mutagen_File (sorted_set found) mapping by_format)
      with (fmt := fmt); [apply sort_by_sorted | exact Hloop | exact Hin]. }
  split; [exact Hid |].
  unfold write_format. now rewrite Hid.
Qed.

Lemma run_sort_redundant_witness :
  parse_referenced_files (rt := Examples.runtime) (tree := MoreExamples.tree) =
    Ok (MoreExamples.scanned_files, MoreExamples.scanned_mapping) /\
  exists by_format,
    build_cases (rt := Examples.runtime) Examples.sample_decoder
      MoreExamples.scanned_mapping MoreExamples.scanned_files [] = Ok by_format /\
    forall fmt cases, In (fmt, cases) by_format -> sort_by inputFile cases = cases.
Proof.
  split; [reflexivity |].
  eexists. split; [reflexivity |].
  intros fmt cases Hin.
  destruct (run_sort_redundant (rt := Examples.runtime) (tree := MoreExamples.tree)
              Examples.sample_decoder MoreExamples.scanned_files
              MoreExamples.scanned_mapping _ eq_refl eq_refl fmt cases Hin) as [Hid _].
  exact Hid.
Defined.
